(** * Afgørelsesportalen synchroniser: a shallow embedding of [sync.py]

    The development follows the layout of
    [src/afgorelsesportalen/sync.py]: Python strings and the few [str]
    methods the module calls, [urllib.parse.urlparse], the identifier and
    board classifier, the [Decision] record and its text form, the sitemap
    walker, the page extractor and finally the archive reconciler
    [update_decision_knowledge].  Theorems come after the definitions. *)

From Stdlib Require Import NArith ZArith String Ascii List Bool Lia.
From stdpp Require Import base option list gmap sets sorting.

Set Warnings "-register-all,-level-tolerance".

Local Open Scope N_scope.

(** ** Python strings

    A Python [str] is a sequence of Unicode code points; it is modelled as
    a list of [N].  Literals of the source are written [u "..."]: the UTF-8
    bytes of the Rocq literal are decoded to code points, so that ["æ"] is
    the one code point 230 as it is in Python. *)

Abbreviation pystr := (list N) (only parsing).

Module Py.

Definition bytes_of (s : string) : list N :=
  List.map N_of_ascii (list_ascii_of_string s).

(** [bytes.decode("utf-8", "replace")]: well-formed sequences are decoded,
    every maximal ill-formed prefix becomes U+FFFD.  The state holds the
    bits read so far, the number of continuation bytes still expected and
    the range allowed for the next byte. *)
Definition utf8_state : Type := N * nat * N * N.

Definition utf8_lead (b : N) : N + utf8_state :=
  if b <? 128 then inl b
  else if (194 <=? b) && (b <=? 223) then inr (b - 192, 0%nat, 128, 191)
  else if b =? 224 then inr (0, 1%nat, 160, 191)
  else if b =? 237 then inr (13, 1%nat, 128, 159)
  else if (225 <=? b) && (b <=? 239) then inr (b - 224, 1%nat, 128, 191)
  else if b =? 240 then inr (0, 2%nat, 144, 191)
  else if b =? 244 then inr (4, 2%nat, 128, 143)
  else if (241 <=? b) && (b <=? 243) then inr (b - 240, 2%nat, 128, 191)
  else inl 65533.

Fixpoint utf8_decode_from (st : option utf8_state) (bs : list N) : pystr :=
  match bs with
  | [] => match st with None => [] | Some _ => [65533] end
  | b :: bs' =>
    let restart (prefix : pystr) :=
      match utf8_lead b with
      | inl c => prefix ++ c :: utf8_decode_from None bs'
      | inr st' => prefix ++ utf8_decode_from (Some st') bs'
      end in
    match st with
    | None => restart []
    | Some (acc, more, lo, hi) =>
      if (lo <=? b) && (b <=? hi) then
        let acc' := acc * 64 + (b - 128) in
        match more with
        | O => acc' :: utf8_decode_from None bs'
        | S more' => utf8_decode_from (Some (acc', more', 128, 191)) bs'
        end
      else restart [65533]
    end
  end.

Definition utf8_decode (bs : list N) : pystr := utf8_decode_from None bs.

Definition u (s : string) : pystr := utf8_decode (bytes_of s).

Definition eqb (a b : pystr) : bool := bool_decide (a = b).

(** [x in s] for strings: [needle] occurs in [hay] as a substring. *)
Fixpoint startswith (p s : pystr) : bool :=
  match p, s with
  | [], _ => true
  | _ :: _, [] => false
  | a :: p', b :: s' => (a =? b) && startswith p' s'
  end.

Fixpoint contains (needle hay : pystr) : bool :=
  startswith needle hay ||
  match hay with
  | [] => false
  | _ :: hay' => contains needle hay'
  end.

Definition endswith (suffix s : pystr) : bool :=
  startswith (rev suffix) (rev s).

Definition has_char (c : N) (s : pystr) : bool := existsb (N.eqb c) s.

(** [s.find(c)] and [s.rfind(c)] for a one-character [c]; [None] is
    Python's [-1]. *)
Fixpoint find (c : N) (s : pystr) : option nat :=
  match s with
  | [] => None
  | x :: s' => if x =? c then Some 0%nat else S <$> find c s'
  end.

Fixpoint rfind (c : N) (s : pystr) : option nat :=
  match s with
  | [] => None
  | x :: s' =>
    match rfind c s' with
    | Some i => Some (S i)
    | None => if x =? c then Some 0%nat else None
    end
  end.

(** [s.split(sep)] for a one-character separator: never empty. *)
Fixpoint split (sep : N) (s : pystr) : list pystr :=
  match s with
  | [] => [[]]
  | c :: s' =>
    if c =? sep then [] :: split sep s'
    else
      match split sep s' with
      | w :: ws => (c :: w) :: ws
      | [] => [[c]]
      end
  end.

(** [s.split(sep, 1)]: the text before the first [sep] and the text
    after it. *)
Fixpoint split1 (sep : N) (s : pystr) : pystr * pystr :=
  match s with
  | [] => ([], [])
  | c :: s' =>
    if c =? sep then ([], s')
    else let '(a, b) := split1 sep s' in (c :: a, b)
  end.

(** [sep.join(parts)] *)
Fixpoint join (sep : pystr) (parts : list pystr) : pystr :=
  match parts with
  | [] => []
  | [p] => p
  | p :: ps => p ++ sep ++ join sep ps
  end.

(** [s.replace(old, new)] for a non-empty [old]: occurrences are taken
    left to right and do not overlap.  [skip] counts the characters of a
    matched occurrence that are still to be dropped. *)
Fixpoint replace_from (old new : pystr) (skip : nat) (s : pystr) : pystr :=
  match s with
  | [] => []
  | c :: s' =>
    match skip with
    | S k => replace_from old new k s'
    | O =>
      if startswith old s
      then new ++ replace_from old new (length old - 1) s'
      else c :: replace_from old new 0 s'
    end
  end.

Definition replace (old new s : pystr) : pystr := replace_from old new 0 s.

(** [str.isspace] on one code point: the code points whose Unicode
    property is White_Space or whose bidirectional class is WS, B or S. *)
Definition isspace (c : N) : bool :=
  ((9 <=? c) && (c <=? 13)) || ((28 <=? c) && (c <=? 32))
  || (c =? 133) || (c =? 160) || (c =? 5760)
  || ((8192 <=? c) && (c <=? 8202))
  || (c =? 8232) || (c =? 8233) || (c =? 8239) || (c =? 8287)
  || (c =? 12288).

Fixpoint lstrip (s : pystr) : pystr :=
  match s with
  | [] => []
  | c :: s' => if isspace c then lstrip s' else s
  end.

Definition rstrip (s : pystr) : pystr := rev (lstrip (rev s)).

(** [s.strip()] *)
Definition strip (s : pystr) : pystr := rstrip (lstrip s).

(** [s.split()]: the maximal runs of non-whitespace characters.  [cur]
    is the word being read, reversed. *)
Fixpoint words_from (cur : pystr) (s : pystr) : list pystr :=
  match s with
  | [] => match cur with [] => [] | _ => [rev cur] end
  | c :: s' =>
    if isspace c then
      match cur with
      | [] => words_from [] s'
      | _ => rev cur :: words_from [] s'
      end
    else words_from (c :: cur) s'
  end.

Definition split_ws (s : pystr) : list pystr := words_from [] s.

(** Case mappings.  The tables cover ASCII and Latin-1, the repertoire of
    the portal's Danish URLs; other code points are left as they are. *)
Definition lower_cp (c : N) : N :=
  if (65 <=? c) && (c <=? 90) then c + 32
  else if (192 <=? c) && (c <=? 222) && negb (c =? 215) then c + 32
  else c.

(** Title-case mapping of one code point, as [str.capitalize] applies it
    to the first character ("ß" becomes "Ss"). *)
Definition title_cp (c : N) : pystr :=
  if (97 <=? c) && (c <=? 122) then [c - 32]
  else if (224 <=? c) && (c <=? 254) && negb (c =? 247) then [c - 32]
  else if c =? 223 then [83; 115]
  else if c =? 181 then [924]
  else if c =? 255 then [376]
  else [c].

Definition lower (s : pystr) : pystr := List.map lower_cp s.

(** [s.capitalize()] *)
Definition capitalize (s : pystr) : pystr :=
  match s with
  | [] => []
  | c :: s' => title_cp c ++ lower s'
  end.

(** [re.sub(r"[-_]+", " ", s)]: every maximal run of hyphens and
    underscores becomes one space. *)
Definition is_dash (c : N) : bool := (c =? 45) || (c =? 95).

Fixpoint sub_dashes_from (in_run : bool) (s : pystr) : pystr :=
  match s with
  | [] => []
  | c :: s' =>
    if is_dash c then
      if in_run then sub_dashes_from true s'
      else 32 :: sub_dashes_from true s'
    else c :: sub_dashes_from false s'
  end.

Definition sub_dashes (s : pystr) : pystr := sub_dashes_from false s.

(** [str(n)] for a non-negative integer. *)
Fixpoint digits_from (fuel : nat) (n : N) (acc : pystr) : pystr :=
  let acc' := (48 + n mod 10) :: acc in
  match fuel with
  | O => acc'
  | S fuel' => if n / 10 =? 0 then acc' else digits_from fuel' (n / 10) acc'
  end.

Definition of_N (n : N) : pystr := digits_from (N.to_nat (N.log2 n)) n [].

(** [s.zfill(w)], the zero padding of [%02d] and [%04d]. *)
Definition zfill (w : nat) (s : pystr) : pystr :=
  repeat 48 (w - length s) ++ s.

(** A surrogate: a code point that has no UTF-8 encoding. *)
Definition is_surrogate (c : N) : bool := (55296 <=? c) && (c <=? 57343).

(** [s.encode("utf-8")] does not raise *)
Definition encodable (s : pystr) : bool :=
  forallb (fun c => negb (is_surrogate c)) s.

End Py.

Abbreviation u := Py.u.

(** ** Exceptions and results

    [SitemapError] is the one exception class [sync.py] declares.
    [ValueError] is what [urllib.parse] raises, and the file operations on
    a name with a null character; [RecursionError] is what the interpreter
    raises when the generators of the sitemap walk nest deeper than its
    recursion limit; and [LibraryError] stands for every exception class
    of the collaborators ([requests], [xml.etree], [bs4], the operating
    system), named by its class. *)

Inductive exn : Type :=
| SitemapError (msg : pystr)
| ValueError (msg : pystr)
| RecursionError
| LibraryError (class_name : pystr).

Inductive result (A : Type) : Type :=
| Ok (a : A)
| Raise (e : exn).

Arguments Ok {A} a.
Arguments Raise {A} e.

Definition rbind {A B : Type} (r : result A) (k : A -> result B) : result B :=
  match r with
  | Ok a => k a
  | Raise e => Raise e
  end.

Declare Scope result_scope.
Delimit Scope result_scope with result.
Notation "'try!' x := r 'in' k" := (rbind r (fun x => k))
  (at level 10, x binder, r at level 100, k at level 200) : result_scope.
Notation "'try!' ' p := r 'in' k" :=
  (rbind r (fun x => match x with p => k end))
  (at level 10, p pattern, r at level 100, k at level 200) : result_scope.
Local Open Scope result_scope.

(** ** Data model *)

(** [datetime.datetime] as [strptime] builds it from the six formats of
    [_extract_published]: a calendar date, a time of day to the second and,
    for the [%z] format, the offset from UTC in microseconds ([%z] reads
    [+HH:MM], [+HH:MM:SS] and [+HH:MM:SS.ffffff]). *)
Record datetime : Type := mk_datetime {
  year : N; month : N; day : N;
  hour : N; minute : N; second : N;
  utcoffset : option Z
}.

(** [@dataclass(frozen=True) class Decision] *)
Record Decision : Type := mk_Decision {
  guid : pystr;
  board : pystr;
  url : pystr;
  title : pystr;
  published : option datetime;
  body : pystr
}.

(** [requests.Response]: the fields the module reads. *)
Record response : Type := mk_response {
  status_code : N;
  content : list N;
  text : pystr
}.

(** [xml.etree.ElementTree.Element]: tag (with its [{namespace}] prefix),
    text and children. *)
Inductive element : Type :=
| Element (tag : pystr) (etext : option pystr) (children : list element).

(** A BeautifulSoup tree: strings and tags with attributes.
    [NavigableString] stands for the strings that [get_text] returns (the
    classes [NavigableString] and [CData]), [HiddenString] for those it
    leaves out ([Comment], [Script], [Stylesheet], [TemplateString],
    [Doctype], [Declaration], [ProcessingInstruction]). *)
Inductive node : Type :=
| NavigableString (s : pystr)
| HiddenString (s : pystr)
| Tag (name : pystr) (attrs : list (pystr * pystr)) (contents : list node).

(** The collaborators of the module: the network, the parsers of the
    libraries and the interpreter's recursion limit.  The model is
    parametric in them; they are fixed for the duration of a run. *)
Class Platform : Type := {
  (** [session.get(url, timeout=REQUEST_TIMEOUT)] *)
  session_get : pystr -> result response;
  (** [ET.fromstring(response.content)] *)
  ET_fromstring : list N -> result element;
  (** [BeautifulSoup(response.text, "html.parser")]: the document node,
      or the exception of the parser on markup it rejects
      ([ParserRejectedMarkup]) *)
  BeautifulSoup : pystr -> result node;
  (** [datetime.strptime(text, fmt)], [None] for its [ValueError] *)
  strptime : pystr -> pystr -> option datetime;
  (** the host checks of [urlsplit] beyond bracket balance (IP literal
      syntax, NFKC normalisation), which raise [ValueError] *)
  netloc_ok : pystr -> bool;
  (** how many generator frames the sitemap walk may nest *)
  recursion_limit : nat
}.

(** ** [urllib.parse] (as in CPython 3.11) *)

Module Url.

Record ParseResult : Type := mk_ParseResult {
  scheme : pystr;
  netloc : pystr;
  path : pystr;
  params : pystr;
  query : pystr;
  fragment : pystr
}.

Definition ascii_alpha (c : N) : bool :=
  ((65 <=? c) && (c <=? 90)) || ((97 <=? c) && (c <=? 122)).

Definition ascii_digit (c : N) : bool := (48 <=? c) && (c <=? 57).

(** [scheme_chars]: letters, digits, [+], [-] and [.] *)
Definition scheme_char (c : N) : bool :=
  ascii_alpha c || ascii_digit c || (c =? 43) || (c =? 45) || (c =? 46).

Definition uses_params : list pystr :=
  [u ""; u "ftp"; u "hdl"; u "prospero"; u "http"; u "imap"; u "https";
   u "shttp"; u "rtsp"; u "rtspu"; u "sip"; u "sips"; u "mms"; u "sftp";
   u "tel"].

(** [url.lstrip(_WHATWG_C0_CONTROL_OR_SPACE)] *)
Fixpoint lstrip_c0 (s : pystr) : pystr :=
  match s with
  | [] => []
  | c :: s' => if c <=? 32 then lstrip_c0 s' else s
  end.

(** removal of [_UNSAFE_URL_BYTES_TO_REMOVE]: tab, line feed, return *)
Definition remove_unsafe (s : pystr) : pystr :=
  List.filter (fun c => negb ((c =? 9) || (c =? 10) || (c =? 13))) s.

(** The scheme test of [urlsplit]: a colon not in first position, an
    ASCII letter first and only scheme characters before the colon. *)
Definition split_scheme (url : pystr) : pystr * pystr :=
  match Py.find 58 url with
  | Some (S i) =>
    let head := take (S i) url in
    if forallb ascii_alpha (take 1 url) && forallb scheme_char head
    then (Py.lower head, drop (S (S i)) url)
    else ([], url)
  | _ => ([], url)
  end.

(** [_splitnetloc(url, 2)] on the text after the two slashes. *)
Fixpoint splitnetloc (s : pystr) : pystr * pystr :=
  match s with
  | [] => ([], [])
  | c :: s' =>
    if (c =? 47) || (c =? 63) || (c =? 35) then ([], s)
    else let '(a, b) := splitnetloc s' in (c :: a, b)
  end.

Definition unbalanced_brackets (netloc : pystr) : bool :=
  (Py.has_char 91 netloc && negb (Py.has_char 93 netloc))
  || (Py.has_char 93 netloc && negb (Py.has_char 91 netloc)).

Definition urlsplit `{Platform} (url0 : pystr)
  : result (pystr * pystr * pystr * pystr * pystr) :=
  let url1 := remove_unsafe (lstrip_c0 url0) in
  let '(scheme, url2) := split_scheme url1 in
  try! '(netloc, url3) :=
    (if Py.startswith (u "//") url2 then
       let '(netloc, rest) := splitnetloc (drop 2 url2) in
       if unbalanced_brackets netloc
       then Raise (ValueError (u "Invalid IPv6 URL"))
       else Ok (netloc, rest)
     else Ok ([], url2)) in
  let '(url4, fragment) :=
    if Py.has_char 35 url3 then Py.split1 35 url3 else (url3, []) in
  let '(url5, query) :=
    if Py.has_char 63 url4 then Py.split1 63 url4 else (url4, []) in
  if netloc_ok netloc
  then Ok (scheme, netloc, url5, query, fragment)
  else Raise (ValueError (u "netloc")).

(** [_splitparams] *)
Definition splitparams (url : pystr) : pystr * pystr :=
  match Py.rfind 47 url with
  | Some j =>
    match Py.find 59 (drop j url) with
    | Some k => (take (j + k) url, drop (S (j + k)) url)
    | None => (url, [])
    end
  | None =>
    match Py.find 59 url with
    | Some i => (take i url, drop (S i) url)
    | None => (url, [])
    end
  end.

Definition urlparse `{Platform} (url : pystr) : result ParseResult :=
  try! '(scheme, netloc, rest, query, fragment) := urlsplit url in
  let '(path, params) :=
    if bool_decide (scheme ∈ uses_params) && Py.has_char 59 rest
    then splitparams rest
    else (rest, []) in
  Ok (mk_ParseResult scheme netloc path params query fragment).

Definition hex_value (c : N) : option N :=
  if ascii_digit c then Some (c - 48)
  else if (65 <=? c) && (c <=? 70) then Some (c - 55)
  else if (97 <=? c) && (c <=? 102) then Some (c - 87)
  else None.

(** [_unquote_impl]: the bytes of an ASCII run, every [%XX] with two
    hexadecimal digits replaced by the byte it names. *)
Fixpoint unquote_impl (s : pystr) : list N :=
  match s with
  | [] => []
  | c :: s' =>
    let keep := c :: unquote_impl s' in
    if c =? 37 then
      match s' with
      | a :: s'' =>
        match s'' with
        | b :: s''' =>
          match hex_value a, hex_value b with
          | Some x, Some y => (16 * x + y) :: unquote_impl s'''
          | _, _ => keep
          end
        | [] => keep
        end
      | [] => keep
      end
    else keep
  end.

(** [_generate_unquoted_parts]: maximal ASCII runs are unquoted and
    decoded, the characters between them are kept.  [run] is the ASCII
    run being read, reversed. *)
Fixpoint unquote_parts (run : pystr) (s : pystr) : pystr :=
  match s with
  | [] => Py.utf8_decode (unquote_impl (rev run))
  | c :: s' =>
    if c <? 128 then unquote_parts (c :: run) s'
    else Py.utf8_decode (unquote_impl (rev run)) ++ c :: unquote_parts [] s'
  end.

(** [unquote(string)] with its defaults [utf-8] and [replace] *)
Definition unquote (s : pystr) : pystr :=
  if Py.has_char 37 s then unquote_parts [] s else s.

End Url.

(** ** Identifier and board classifier *)

Section Classifier.
Context `{Platform}.

(** Non-empty segments of a path: [[s for s in path.split("/") if s]] *)
Definition segments (path : pystr) : list pystr :=
  List.filter (fun seg => negb (Py.eqb seg [])) (Py.split 47 path).

(** [x or None] on a string *)
Definition or_None (s : pystr) : option pystr :=
  match s with
  | [] => None
  | _ => Some s
  end.

(** [candidate.split(c)[0]] *)
Definition before (c : N) (s : pystr) : pystr :=
  List.hd [] (Py.split c s).

Definition _extract_guid (url : pystr) : result (option pystr) :=
  try! parsed := Url.urlparse url in
  let segs := segments (Url.path parsed) in
  match last segs with
  | None => Ok None
  | Some candidate =>
    let candidate := before 63 candidate in
    let candidate := before 35 candidate in
    Ok (or_None candidate)
  end.

(** Lines 259-264: the path segment the board is read from, the host when
    the path has none. *)
Definition board_slug (parsed : Url.ParseResult) : pystr :=
  match segments (Url.path parsed) with
  | first :: second :: _ =>
    if bool_decide (Py.lower first ∈ [u "naevn"; u "nævn"])
    then second
    else first
  | [first] => first
  | [] => Url.netloc parsed
  end.

(** Lines 266-271: the cleaning of the slug. *)
Definition clean_slug (slug : pystr) : pystr :=
  let slug := Py.replace (u "%C3%A6") (u "æ") slug in
  let slug := Py.replace (u "-%") (u "-") slug in
  let cleaned := Url.unquote slug in
  let cleaned := Py.sub_dashes cleaned in
  let cleaned :=
    Py.replace (u "naevn") (u "nævn")
      (Py.replace (u "Naevn") (u "Nævn") cleaned) in
  Py.strip cleaned.

Definition _derive_board_name (url : pystr) : result pystr :=
  try! parsed := Url.urlparse url in
  let slug := board_slug parsed in
  let cleaned := clean_slug slug in
  match cleaned with
  | [] => Ok (Url.netloc parsed)
  | _ => Ok (Py.join (u " ") (Py.capitalize <$> Py.split_ws cleaned))
  end.

End Classifier.

(** [tag.split("}")[-1] if "}" in tag else tag] *)
Definition _strip_namespace (tag : pystr) : pystr :=
  if Py.has_char 125 tag then List.last (Py.split 125 tag) [] else tag.

Definition _looks_like_decision (url : pystr) : bool :=
  let lowered := Py.lower url in
  Py.contains (u "/afgoerelse/") lowered || Py.contains (u "/nyhed/") lowered.

(** ** [Decision.as_text] *)

(** [datetime.isoformat()] for the values [strptime] builds here:
    [YYYY-MM-DDTHH:MM:SS], followed for an aware value by [+HH:MM], by
    [:SS] when the offset has seconds or microseconds, and by [.ffffff]
    when it has microseconds. *)
Definition two (n : N) : pystr := Py.zfill 2 (Py.of_N n).

Definition isoformat_offset (off : Z) : pystr :=
  let sign := if (off <? 0)%Z then u "-" else u "+" in
  let a := Z.to_N (Z.abs off) in
  let hh := a / 3600000000 in
  let mm := (a mod 3600000000) / 60000000 in
  let ss := (a mod 60000000) / 1000000 in
  let us := a mod 1000000 in
  sign ++ two hh ++ u ":" ++ two mm
       ++ (if (ss =? 0) && (us =? 0) then []
           else u ":" ++ two ss
                ++ (if us =? 0 then [] else u "." ++ Py.zfill 6 (Py.of_N us))).

Definition isoformat (d : datetime) : pystr :=
  Py.zfill 4 (Py.of_N (year d)) ++ u "-" ++ two (month d) ++ u "-"
    ++ two (day d) ++ u "T" ++ two (hour d) ++ u ":" ++ two (minute d)
    ++ u ":" ++ two (second d)
    ++ match utcoffset d with
       | Some off => isoformat_offset off
       | None => []
       end.

(** [self.published.isoformat() if self.published else "Unknown"]: a
    [datetime] is always true. *)
Definition published_text (d : Decision) : pystr :=
  match published d with
  | Some t => isoformat t
  | None => u "Unknown"
  end.

Definition as_text (d : Decision) : pystr :=
  let header :=
    [ u "GUID: " ++ guid d;
      u "Board: " ++ board d;
      u "Published: " ++ published_text d;
      u "Source: " ++ url d;
      u "";
      title d;
      repeat 61 (length (title d));
      u "" ] in
  Py.join (u "
") (header ++ [Py.strip (body d); u ""]).

(** ** Sitemap walker *)

(** [elem.iter()]: the element and its descendants in document order. *)
Fixpoint iter (e : element) : list element :=
  match e with
  | Element _ _ cs => e :: List.flat_map iter cs
  end.

Definition tag_of (e : element) : pystr :=
  match e with Element t _ _ => t end.

Definition text_of (e : element) : option pystr :=
  match e with Element _ t _ => t end.

(** The tag test of the path [{*}loc]: the name [loc] in any namespace or
    in none. *)
Definition is_loc (e : element) : bool :=
  Py.eqb (tag_of e) (u "loc") || Py.endswith (u "}loc") (tag_of e).

(** [xml_root.findall(".//{*}loc")]: the proper descendants named [loc]. *)
Definition findall_loc (root : element) : list element :=
  List.filter is_loc (List.tl (iter root)).

(** [child.text.strip() if child.text else ""] *)
Definition stripped_text (e : element) : pystr :=
  match text_of e with
  | Some t => Py.strip t
  | None => []
  end.

(** The links a [urlset] document yields: entries with a text, stripped,
    that look like a decision. *)
Definition urlset_links (root : element) : list pystr :=
  List.filter _looks_like_decision
    (stripped_text <$>
       List.filter (fun e => negb (Py.eqb (default [] (text_of e)) []))
         (findall_loc root)).

(** The child sitemaps an index names: the non-empty stripped texts. *)
Definition index_children (root : element) : list pystr :=
  List.filter (fun c => negb (Py.eqb c [])) (stripped_text <$> findall_loc root).

Section Walker.
Context `{Platform}.

(** [yield from] over the children, in order; the first exception ends
    the walk. *)
Fixpoint concat_results (rs : list (result (list pystr)))
  : result (list pystr) :=
  match rs with
  | [] => Ok []
  | r :: rs' =>
    try! xs := r in
    try! ys := concat_results rs' in
    Ok (xs ++ ys)
  end.

(** [list(_iterate_sitemap_urls(session, url))] with [depth] generator
    frames left. *)
Fixpoint _iterate_sitemap_urls (depth : nat) (url : pystr)
  : result (list pystr) :=
  match depth with
  | O => Raise RecursionError
  | S depth' =>
    try! response := session_get url in
    if 400 <=? status_code response then
      Raise (SitemapError
               (u "Failed to fetch sitemap " ++ url ++ u ": HTTP "
                  ++ Py.of_N (status_code response)))
    else
      try! xml_root := ET_fromstring (content response) in
      let tag := _strip_namespace (tag_of xml_root) in
      if Py.eqb tag (u "sitemapindex") then
        concat_results
          (_iterate_sitemap_urls depth' <$> index_children xml_root)
      else if negb (Py.eqb tag (u "urlset")) then
        Raise (SitemapError
                 (u "Unsupported sitemap type '" ++ tag ++ u "' at " ++ url))
      else Ok (urlset_links xml_root)
  end.

End Walker.

(** ** Page extractor *)

Module Soup.

(** [tag.descendants]: document order, the tag itself excluded. *)
Fixpoint self_and_descendants (n : node) : list node :=
  match n with
  | NavigableString _ | HiddenString _ => [n]
  | Tag _ _ cs => n :: List.flat_map self_and_descendants cs
  end.

Definition descendants (n : node) : list node :=
  List.tl (self_and_descendants n).

Definition named (name : pystr) (n : node) : bool :=
  match n with
  | Tag t _ _ => Py.eqb t name
  | NavigableString _ | HiddenString _ => false
  end.

(** [tag.get(key)] *)
Fixpoint lookup_attr (key : pystr) (attrs : list (pystr * pystr))
  : option pystr :=
  match attrs with
  | [] => None
  | (k, v) :: attrs' => if Py.eqb k key then Some v else lookup_attr key attrs'
  end.

Definition get (n : node) (key : pystr) : option pystr :=
  match n with
  | Tag _ attrs _ => lookup_attr key attrs
  | NavigableString _ | HiddenString _ => None
  end.

(** [soup.find(name)] and [soup.find(name, key=value)] *)
Definition find (name : pystr) (n : node) : option node :=
  List.find (named name) (descendants n).

Definition find_attr (name key value : pystr) (n : node) : option node :=
  List.find
    (fun d => named name d && bool_decide (get d key = Some value))
    (descendants n).

(** [tag.string]: the single string child, of whichever class, looked
    for through single tag children. *)
Fixpoint string (n : node) : option pystr :=
  match n with
  | NavigableString s | HiddenString s => Some s
  | Tag _ _ [c] => string c
  | Tag _ _ _ => None
  end.

(** [tag.get_text(sep, strip=True)]: the descendant strings of the
    classes [get_text] returns, stripped, the empty ones dropped, joined
    by [sep]. *)
Definition strings (n : node) : list pystr :=
  List.flat_map
    (fun d => match d with
              | NavigableString s => [s]
              | HiddenString _ | Tag _ _ _ => []
              end)
    (self_and_descendants n).

Definition get_text_strip (sep : pystr) (n : node) : pystr :=
  Py.join sep
    (List.filter (fun s => negb (Py.eqb s [])) (Py.strip <$> strings n)).

End Soup.

(** Python truthiness of an optional string: present and not empty. *)
Definition truthy (o : option pystr) : bool :=
  match o with
  | Some (_ :: _) => true
  | _ => false
  end.

Definition _extract_title (soup : node) : option pystr :=
  let meta := Soup.find_attr (u "meta") (u "property") (u "og:title") soup in
  let meta_content := meta ≫= fun m => Soup.get m (u "content") in
  if truthy meta_content then Py.strip <$> meta_content
  else
    let title_string := Soup.find (u "title") soup ≫= Soup.string in
    if truthy title_string then Py.strip <$> title_string
    else
      let h1_text := Soup.get_text_strip [] <$> Soup.find (u "h1") soup in
      if truthy h1_text then h1_text else None.

Section Extractor.
Context `{Platform}.

(** The first format of [fmts] that [strptime] accepts. *)
Fixpoint first_parse (value : pystr) (fmts : list pystr) : option datetime :=
  match fmts with
  | [] => None
  | fmt :: fmts' =>
    match strptime value fmt with
    | Some d => Some d
    | None => first_parse value fmts'
    end
  end.

Definition _extract_published (soup : node) : option datetime :=
  match Soup.find (u "time") soup with
  | None => None
  | Some time_tag =>
    let from_attr :=
      if truthy (Soup.get time_tag (u "datetime")) then
        first_parse (default [] (Soup.get time_tag (u "datetime")))
          [u "%Y-%m-%dT%H:%M:%S%z"; u "%Y-%m-%dT%H:%M:%S"; u "%Y-%m-%d"]
      else None in
    match from_attr with
    | Some d => Some d
    | None =>
      if truthy (Soup.string time_tag) then
        first_parse (Soup.get_text_strip [] time_tag)
          [u "%d.%m.%Y"; u "%d-%m-%Y"; u "%Y-%m-%d"]
      else None
    end
  end.

(** The case folding of [re.I] on the letters of the three words: beside
    the upper-case letter, the dotted capital and the dotless small [i]
    (U+0130, U+0131) match [i]. *)
Definition re_fold (c : N) : N :=
  if (c =? 304) || (c =? 305) then 105 else Py.lower_cp c.

(** [class_=re.compile("(content|article|entry)", re.I)] on a [div] *)
Definition content_class (n : node) : bool :=
  match Soup.get n (u "class") with
  | Some cls =>
    let lowered := List.map re_fold cls in
    Py.contains (u "content") lowered || Py.contains (u "article") lowered
    || Py.contains (u "entry") lowered
  | None => false
  end.

Definition _extract_body_text (soup : node) : pystr :=
  let nl := u "
" in
  match Soup.find (u "article") soup with
  | Some article => Soup.get_text_strip nl article
  | None =>
    match Soup.find (u "main") soup with
    | Some main => Soup.get_text_strip nl main
    | None =>
      match List.find (fun d => Soup.named (u "div") d && content_class d)
              (Soup.descendants soup) with
      | Some body => Soup.get_text_strip nl body
      | None => Soup.get_text_strip nl soup
      end
    end
  end.

(** [response.raise_for_status()] *)
Definition raise_for_status (r : response) : result unit :=
  if (400 <=? status_code r) && (status_code r <? 600)
  then Raise (LibraryError (u "HTTPError"))
  else Ok tt.

Definition _download_decision (url guid board : pystr) : result Decision :=
  try! response := session_get url in
  try! _ := raise_for_status response in
  try! soup := BeautifulSoup (text response) in
  let title :=
    match _extract_title soup with
    | Some (c :: t) => c :: t
    | _ => u "Afgørelse " ++ guid
    end in
  let published := _extract_published soup in
  let body := _extract_body_text soup in
  Ok (mk_Decision guid board url title published body).

End Extractor.

(** ** The archive on disk

    The state of a run is the archive: its directories, each a map from
    file names to entries.  A directory is named by its path below
    [archive_root], and the root itself has the empty path: it is in the
    map when it exists.  The directory names of the boards are taken as
    they are built ([f"{board} afgørelser"]), as single path components
    (a board that holds a [/] is outside this reading); names are compared
    exactly and may be 255 bytes long, as on a Linux file system; and no
    regular file stands where a directory is to be made. *)

Inductive entry : Type :=
| File (data : pystr)
| Directory.

Abbreviation listing := (gmap (list N) entry) (only parsing).
Abbreviation archive := (gmap (list N) (gmap (list N) entry)) (only parsing).

(** Actions on the archive that may raise: the state after the action and
    its outcome. *)
Definition io (A : Type) : Type := archive -> archive * result A.

Definition io_ret {A : Type} (a : A) : io A := fun fs => (fs, Ok a).

Definition io_raise {A : Type} (e : exn) : io A := fun fs => (fs, Raise e).

Definition io_bind {A B : Type} (m : io A) (k : A -> io B) : io B :=
  fun fs =>
    match m fs with
    | (fs', Ok a) => k a fs'
    | (fs', Raise e) => (fs', Raise e)
    end.

Definition io_lift {A : Type} (r : result A) : io A := fun fs => (fs, r).

Declare Scope io_scope.
Delimit Scope io_scope with io.
Notation "'do!' x := m 'in' k" := (io_bind m (fun x => k))
  (at level 10, x binder, m at level 100, k at level 200) : io_scope.
Notation "'do!' ' p := m 'in' k" :=
  (io_bind m (fun x => match x with p => k end))
  (at level 10, p pattern, m at level 100, k at level 200) : io_scope.

Module Path.

(** [PurePath.stem]: the name without its last suffix; a leading or a
    trailing dot starts no suffix. *)
Definition stem (name : pystr) : pystr :=
  match Py.rfind 46 name with
  | Some (S i) => if (S i <? length name - 1)%nat then take (S i) name else name
  | _ => name
  end.

(** The pattern [*.txt] on a file name. *)
Definition glob_txt (name : pystr) : bool := Py.endswith (u ".txt") name.

Definition is_file (e : entry) : bool :=
  match e with
  | File _ => true
  | Directory => false
  end.

(** [{path.stem for path in archive_dir.glob("*.txt") if path.is_file()}] *)
Definition stems (l : listing) : gset (list N) :=
  list_to_set
    (stem <$> (List.filter (fun ne => glob_txt ne.1 && is_file ne.2)
                 (map_to_list l)).*1).

(** The path of the archive root, below itself.  The path that
    [archive_root] stands for on the machine is no part of the model, and
    making the root does not fail. *)
Definition root : pystr := [].

(** [len(os.fsencode(name))]: the bytes of the UTF-8 encoding, one byte
    for an escape (U+DC80 to U+DCFF). *)
Definition encoded_length (name : pystr) : nat :=
  list_sum
    (List.map
       (fun c => if c <? 128 then 1%nat else if c <? 2048 then 2%nat
                 else if (56448 <=? c) && (c <=? 56575) then 1%nat
                 else if c <? 65536 then 3%nat else 4%nat)
       name).

(** What the conversion of a file name to bytes raises, before the
    operating system sees it: a surrogate that is no escape cannot be
    encoded, and a name cannot hold a null character. *)
Definition conversion_error (name : pystr) : option exn :=
  if existsb (fun c => Py.is_surrogate c
                       && negb ((56448 <=? c) && (c <=? 56575))) name
  then Some (LibraryError (u "UnicodeEncodeError"))
  else if Py.has_char 0 name
  then Some (ValueError (u "embedded null byte"))
  else None.

(** [ENAMETOOLONG] *)
Definition too_long (name : pystr) : bool := (255 <? encoded_length name)%nat.

(** [archive_dir.mkdir(parents=True, exist_ok=True)] *)
Definition mkdir (dir : pystr) : io unit := fun fs =>
  match conversion_error dir with
  | Some e => (fs, Raise e)
  | None =>
    if too_long dir then (fs, Raise (LibraryError (u "OSError")))
    else
      match fs !! dir with
      | Some _ => (fs, Ok tt)
      | None => (<[dir := ∅]> fs, Ok tt)
      end
  end.

(** The listing of a directory that exists. *)
Definition listdir (dir : pystr) : io (gmap (list N) entry) := fun fs =>
  match fs !! dir with
  | Some l => (fs, Ok l)
  | None => (fs, Raise (LibraryError (u "FileNotFoundError")))
  end.

(** [target_path.write_text(data, encoding="utf-8")]: the file is
    opened for writing, which creates or empties it and fails on a name
    that cannot be used or is a directory; the text is encoded and written
    after that, so that a text UTF-8 cannot encode leaves an empty file
    behind its exception. *)
Definition write_text (dir name data : pystr) : io unit := fun fs =>
  match conversion_error name with
  | Some e => (fs, Raise e)
  | None =>
    match fs !! dir with
    | None => (fs, Raise (LibraryError (u "FileNotFoundError")))
    | Some l =>
      if too_long name then (fs, Raise (LibraryError (u "OSError")))
      else
        match l !! name with
        | Some Directory =>
          (fs, Raise (LibraryError (u "IsADirectoryError")))
        | _ =>
          if Py.encodable data
          then (<[dir := <[name := File data]> l]> fs, Ok tt)
          else (<[dir := <[name := File []]> l]> fs,
                Raise (LibraryError (u "UnicodeEncodeError")))
        end
    end
  end.

End Path.

(** ** Archive reconciler *)

(** Python dictionaries keep insertion order: association lists with
    distinct keys. *)
Fixpoint setdefault_append (key value : pystr)
    (d : list (pystr * list pystr)) : list (pystr * list pystr) :=
  match d with
  | [] => [(key, [value])]
  | (k, vs) :: d' =>
    if Py.eqb k key then (k, vs ++ [value]) :: d'
    else (k, vs) :: setdefault_append key value d'
  end.

Fixpoint dict_set {V : Type} (key : pystr) (value : V)
    (d : list (pystr * V)) : list (pystr * V) :=
  match d with
  | [] => [(key, value)]
  | (k, v) :: d' =>
    if Py.eqb k key then (k, value) :: d'
    else (k, v) :: dict_set key value d'
  end.

(** The directory of a board under the archive root:
    [f"{board} afgørelser"] *)
Definition board_dir (board : list N) : list N := board ++ u " afgørelser".

Section Reconciler.
Context `{Platform}.
Local Open Scope io_scope.

(** Lines 149-155: the discovered URLs grouped by board. *)
Fixpoint group_urls (decision_urls : list pystr)
    (grouped : list (pystr * list pystr))
  : result (list (pystr * list pystr)) :=
  match decision_urls with
  | [] => Ok grouped
  | decision_url :: rest =>
    try! guid := _extract_guid decision_url in
    if negb (truthy guid) then group_urls rest grouped
    else
      try! board := _derive_board_name decision_url in
      group_urls rest (setdefault_append board decision_url grouped)
  end.

(** Lines 166-181: the URLs of one board. *)
Fixpoint download_new (board archive_dir : pystr) (urls : list pystr)
    (existing_guids : gset (list N)) (added : nat)
  : io (gset (list N) * nat) :=
  match urls with
  | [] => io_ret (existing_guids, added)
  | url :: rest =>
    do! guid := io_lift (_extract_guid url) in
    match guid with
    | Some (c :: g) =>
      let guid := c :: g in
      if bool_decide (guid ∈ existing_guids)
      then download_new board archive_dir rest existing_guids added
      else
        match _download_decision url guid board with
        | Raise exc =>
          (* logger.warning("Failed to download decision ...") *)
          download_new board archive_dir rest existing_guids added
        | Ok decision =>
          do! _ := Path.write_text archive_dir (guid ++ u ".txt")
                     (as_text decision) in
          download_new board archive_dir rest
            ({[guid]} ∪ existing_guids) (S added)
        end
    | _ => download_new board archive_dir rest existing_guids added
    end
  end.

(** Lines 159-183: the boards in insertion order. *)
Fixpoint sync_boards (grouped : list (pystr * list pystr))
    (summary : list (pystr * (nat * nat)))
  : io (list (pystr * (nat * nat))) :=
  match grouped with
  | [] => io_ret summary
  | (board, urls) :: rest =>
    let archive_dir := board_dir board in
    do! _ := Path.mkdir archive_dir in
    do! files := Path.listdir archive_dir in
    do! '(existing_guids, added) :=
      download_new board archive_dir urls (Path.stems files) 0 in
    sync_boards rest (dict_set board (size existing_guids, added) summary)
  end.

(** Lines 142-185.  The session is the [session_get] of the platform. *)
Definition update_decision_knowledge (sitemap_url : pystr)
  : io (list (pystr * (nat * nat))) :=
  do! _ := Path.mkdir Path.root in
  do! decision_urls :=
    io_lift (_iterate_sitemap_urls recursion_limit sitemap_url) in
  do! grouped := io_lift (group_urls decision_urls []) in
  sync_boards grouped [].

End Reconciler.

(** ** Summary report and trigger *)

(** The order of Python on strings: code point by code point, a proper
    prefix first. *)
Fixpoint str_leb (a b : pystr) : bool :=
  match a, b with
  | [], _ => true
  | _ :: _, [] => false
  | x :: a', y :: b' =>
    if x <? y then true else if y <? x then false else str_leb a' b'
  end.

(** The order of [sorted(summary.items())] on the rows
    [(board, (existing, added))]: tuples compare component by component. *)
Definition item_leb (r1 r2 : pystr * (nat * nat)) : bool :=
  if Py.eqb r1.1 r2.1 then
    if (r1.2.1 =? r2.2.1)%nat then (r1.2.2 <=? r2.2.2)%nat
    else (r1.2.1 <? r2.2.1)%nat
  else str_leb r1.1 r2.1.

Fixpoint insert_sorted (r : pystr * (nat * nat))
    (rows : list (pystr * (nat * nat))) : list (pystr * (nat * nat)) :=
  match rows with
  | [] => [r]
  | x :: rows' =>
    if item_leb r x then r :: rows else x :: insert_sorted r rows'
  end.

(** [sorted(rows)] *)
Definition sorted (rows : list (pystr * (nat * nat)))
  : list (pystr * (nat * nat)) :=
  foldr insert_sorted [] rows.

(** [str(n)] inside an f-string, for a count. *)
Definition of_nat (n : nat) : pystr := Py.of_N (N.of_nat n).

(** [f"- {board}: {existing} sager i alt ({added} nye)"] *)
Definition summary_line (row : pystr * (nat * nat)) : pystr :=
  u "- " ++ row.1 ++ u ": " ++ of_nat row.2.1 ++ u " sager i alt ("
    ++ of_nat row.2.2 ++ u " nye)".

(** [total_records] and [total_new] after the loop. *)
Definition total_records (rows : list (pystr * (nat * nat))) : nat :=
  foldl (fun acc row => (acc + row.2.1)%nat) 0%nat rows.

Definition total_new (rows : list (pystr * (nat * nat))) : nat :=
  foldl (fun acc row => (acc + row.2.2)%nat) 0%nat rows.

Definition _format_summary (summary : list (pystr * (nat * nat))) : pystr :=
  let rows := sorted summary in
  let lines :=
    [u "Synkronisering fuldført:"] ++ (summary_line <$> rows)
      ++ [ [];
           u "I alt " ++ of_nat (total_records rows)
             ++ u " sager i arkivet, " ++ of_nat (total_new rows) ++ u " nye" ]
  in
  Py.join (u "
") lines.

(** The message of a prompt that is no synchronisation request. *)
Definition no_sync_message : pystr :=
  u "Ingen synkronisering udført. Skriv 'hent alle afgørelser fra afgørelsesportalerne' for at opdatere vidensarkivet.".

(** Lines 104-105: the test on the normalised prompt. *)
Definition prompt_matches (prompt : pystr) : bool :=
  let normalized := Py.join (u " ") (Py.split_ws (Py.lower prompt)) in
  Py.contains (u "hent") normalized
  && Py.contains (u "afgørelser") normalized
  && Py.contains (u "portalerne") normalized.

Section Trigger.
Context `{Platform}.
Local Open Scope io_scope.

(** [handle_prompt(prompt, archive_root=..., sitemap_url=...)]; the
    archive root is the state. *)
Definition handle_prompt (prompt sitemap_url : pystr) : io pystr :=
  if prompt_matches prompt then
    do! summary := update_decision_knowledge sitemap_url in
    io_ret (_format_summary summary)
  else io_ret no_sync_message.

End Trigger.

(** ** Vocabulary of the properties *)

Section Vocabulary.
Context `{Platform}.

(** A document fetched without an HTTP failure and parsed to [root]. *)
Definition serves (url0 : list N) (root : element) : Prop :=
  ∃ r, session_get url0 = Ok r ∧ status_code r < 400
       ∧ ET_fromstring (content r) = Ok root.

(** [url0] serves a sitemap whose root is a [urlset]. *)
Definition urlset_at (url0 : list N) (root : element) : Prop :=
  serves url0 root ∧ _strip_namespace (tag_of root) = u "urlset".

(** Every directory of [fs] is a directory of [fs'] and holds at least the
    same entries there, with the same data. *)
Definition grows (fs fs' : gmap (list N) (gmap (list N) entry)) : Prop :=
  ∀ dir l, fs !! dir = Some l → ∃ l', fs' !! dir = Some l' ∧ l ⊆ l'.

(** The known-set of a board is the set of stems of its directory. *)
Definition tracked (dir : list N) (existing : gset (list N))
    (fs : gmap (list N) (gmap (list N) entry)) : Prop :=
  ∃ l, fs !! dir = Some l ∧ Path.stems l = existing.

(** Nothing is left to do for [url0]: it has no identifier, its identifier
    is on disk, or its download fails. *)
Definition settled (board dir : list N)
    (fs : gmap (list N) (gmap (list N) entry)) (url0 : list N) : Prop :=
  match _extract_guid url0 with
  | Raise _ => False
  | Ok (Some (c :: g)) =>
    (∃ l, fs !! dir = Some l ∧ c :: g ∈ Path.stems l)
    ∨ (∃ e, _download_decision url0 (c :: g) board = Raise e)
  | Ok _ => True
  end.

(** The keys of a dictionary after [d[key] = ...]. *)
Fixpoint add_key (key : list N) (keys : list (list N)) : list (list N) :=
  match keys with
  | [] => [key]
  | k :: keys' => if Py.eqb k key then k :: keys' else k :: add_key key keys'
  end.


End Vocabulary.

(** ** A small portal

    A fixed instance of the collaborators, used to run the model: a sitemap
    index over two leaf sitemaps, a sitemap that answers 500, a feed whose
    root is no sitemap, and a handful of pages, one of them missing. *)

Module Demo.

Definition ns : string := "{http://www.sitemaps.org/schemas/sitemap/0.9}".

Definition loc (t : string) : element :=
  Element (u (ns ++ "loc")) (Some (u t)) [].

Definition index_doc : element :=
  Element (u (ns ++ "sitemapindex")) None
    [ Element (u (ns ++ "sitemap")) None [loc "https://p.dk/s1.xml"];
      Element (u (ns ++ "sitemap")) None [loc " https://p.dk/s2.xml "] ].

Definition s1_doc : element :=
  Element (u (ns ++ "urlset")) None
    [ Element (u (ns ++ "url")) None
        [loc "https://p.dk/naevn/skat/afgoerelse/A-1"];
      Element (u (ns ++ "url")) None [loc "https://p.dk/om-os"];
      Element (u (ns ++ "url")) None
        [loc "https://p.dk/kontakt?retur=/afgoerelse/7"] ].

Definition s2_doc : element :=
  Element (u "urlset") None
    [ Element (u "url") None [loc "https://p.dk/naevn/miljo/nyhed/N-2"];
      Element (u "url") None
        [loc "https://p.dk/naevn/skat/afgoerelse/B-404"] ].

Definition feed_doc : element := Element (u "rss") None [].

Definition sitemap_url : list N := u "https://p.dk/sitemap.xml".
Definition s1_url : list N := u "https://p.dk/s1.xml".
Definition s2_url : list N := u "https://p.dk/s2.xml".
Definition broken_url : list N := u "https://p.dk/broken.xml".
Definition feed_url : list N := u "https://p.dk/feed.xml".
Definition a1_url : list N := u "https://p.dk/naevn/skat/afgoerelse/A-1".
Definition b404_url : list N := u "https://p.dk/naevn/skat/afgoerelse/B-404".
Definition contact_url : list N :=
  u "https://p.dk/kontakt?retur=/afgoerelse/7".
Definition n2_url : list N := u "https://p.dk/naevn/miljo/nyhed/N-2".

(** [<title>t</title>] and an article *)
Definition page (t : string) : node :=
  Tag (u "[document]") []
    [ Tag (u "html") []
        [ Tag (u "head") [] [Tag (u "title") [] [NavigableString (u t)]];
          Tag (u "body") []
            [Tag (u "article") [] [NavigableString (u " tekst ")]] ] ].

(** [<meta property="og:title" content="T1">] and [<h1>T2</h1>] *)
Definition page_og_h1 : node :=
  Tag (u "[document]") []
    [ Tag (u "meta") [(u "property", u "og:title"); (u "content", u "T1")] [];
      Tag (u "h1") [] [NavigableString (u "T2")] ].

(** [<meta property="og:title" content=" ">] and [<title>Real</title>] *)
Definition page_blank_og : node :=
  Tag (u "[document]") []
    [ Tag (u "meta") [(u "property", u "og:title"); (u "content", u " ")] [];
      Tag (u "title") [] [NavigableString (u "Real")] ].

Definition responses : list (list N * response) :=
  [ (sitemap_url, mk_response 200 (u "index") []);
    (s1_url, mk_response 200 (u "s1") []);
    (s2_url, mk_response 200 (u "s2") []);
    (broken_url, mk_response 500 [] []);
    (feed_url, mk_response 200 (u "feed") []);
    (a1_url, mk_response 200 [] (u "A-1"));
    (contact_url, mk_response 200 [] (u "blank-og"));
    (n2_url, mk_response 200 [] (u "N-2"));
    (b404_url, mk_response 404 [] (u "not found")) ].

Fixpoint assoc {V : Type} (k : list N) (l : list (list N * V)) : option V :=
  match l with
  | [] => None
  | (k', v) :: l' => if Py.eqb k' k then Some v else assoc k l'
  end.

Definition portal : Platform := {|
  session_get := fun url =>
    match assoc url responses with
    | Some r => Ok r
    | None => Raise (LibraryError (u "ConnectionError"))
    end;
  ET_fromstring := fun c =>
    match assoc c [(u "index", index_doc); (u "s1", s1_doc);
                   (u "s2", s2_doc); (u "feed", feed_doc)] with
    | Some e => Ok e
    | None => Raise (LibraryError (u "ParseError"))
    end;
  BeautifulSoup := fun t =>
    if Py.eqb t (u "blank-og") then Ok page_blank_og else Ok (page "Titel");
  strptime := fun _ _ => None;
  netloc_ok := fun _ => true;
  recursion_limit := 1000
|}.

(** An archive in which the file name of decision [A-1] is taken by a
    directory. *)
Definition blocked_archive : gmap (list N) (gmap (list N) entry) :=
  {[ u "Skat afgørelser" := {[ u "A-1.txt" := Directory ]} ]}.

End Demo.

(** ** Further vocabulary *)

(** A text that neither starts nor ends with whitespace. *)
Definition clean_edges (s : list N) : Prop :=
  match s with
  | [] => True
  | c :: _ => Py.isspace c = false
  end
  ∧ match last s with
    | Some c => Py.isspace c = false
    | None => True
    end.

(** [d.get(key)] on a dictionary *)
Fixpoint dict_get {V : Type} (key : list N) (d : list (list N * V))
  : option V :=
  match d with
  | [] => None
  | (k, v) :: d' => if Py.eqb k key then Some v else dict_get key d'
  end.

(** The board a discovered address is filed under: it needs an identifier
    and a board. *)
Definition board_of `{Platform} (url0 : list N) : option (list N) :=
  match _extract_guid url0 with
  | Ok (Some (_ :: _)) =>
    match _derive_board_name url0 with
    | Ok b => Some b
    | Raise _ => None
    end
  | _ => None
  end.



(** A character of a word of a board name: neither whitespace nor a
    hyphen or an underscore. *)
Definition plain (c : N) : Prop :=
  Py.isspace c = false ∧ Py.is_dash c = false.

(** The order of the rows, as a relation. *)
Definition item_le (r1 r2 : list N * (nat * nat)) : Prop :=
  item_leb r1 r2 = true.

(** What [grouped] holds after the addresses [seen]: under every board
    the addresses filed under it, in the order they were met, and no entry
    for a board without one. *)
Definition grouped_for `{Platform} (seen : list (list N))
    (grouped : list (list N * list (list N))) : Prop :=
  NoDup grouped.*1
  ∧ ∀ b, dict_get b grouped
         = match filter (λ u0, board_of u0 = Some b) seen with
           | [] => None
           | us => Some us
           end.

(** An entry written for one of [urls] under [board]: the text of a
    decision that was downloaded, under the name of its identifier. *)
Definition written_for `{Platform} (board : list N) (urls : list (list N))
    (dir name : list N) (e : entry) : Prop :=
  ∃ url0 guid0 decision,
    url0 ∈ urls ∧ _extract_guid url0 = Ok (Some guid0)
    ∧ _download_decision url0 guid0 board = Ok decision
    ∧ dir = board_dir board ∧ name = guid0 ++ u ".txt"
    ∧ e = File (as_text decision).

(** The entry was there in [fs]. *)
Definition entry_of (fs : gmap (list N) (gmap (list N) entry))
    (dir name : list N) (e : entry) : Prop :=
  ∃ l, fs !! dir = Some l ∧ l !! name = Some e.

(** The number that a string of decimal digits writes. *)
Definition decimal_value (s : list N) : N :=
  foldl (fun acc c => 10 * acc + (c - 48)) 0 s.

(** [s] writes [n] in decimal digits, at least [w] of them, with zeros in
    front only to fill that width: what [%0wd] prints and, for a width of
    one, [str]. *)
Definition decimal (w : nat) (n : N) (s : list N) : Prop :=
  Forall (λ c, 48 <= c <= 57) s
  ∧ decimal_value s = n
  ∧ (w ≤ length s)%nat
  ∧ ((w < length s)%nat → head s ≠ Some 48).


(** The order of Python on strings, as a relation: the first code point
    that differs decides, and a proper prefix comes first. *)
Inductive str_lt : list N → list N → Prop :=
| str_lt_prefix (c : N) (b : list N) : str_lt [] (c :: b)
| str_lt_differ (x y : N) (a b : list N) : x < y → str_lt (x :: a) (y :: b)
| str_lt_same (x : N) (a b : list N) : str_lt a b → str_lt (x :: a) (x :: b).

(** What a run that completed has done for one board, read from the
    archive before and after it: the row of the summary is that of the
    board; its first count is the number of identifiers in the board's
    directory after the run, and exceeds the number before the run by its
    second count; the identifier of every page of the board that can be
    downloaded is in the directory; and every identifier in the directory
    was there before or is that of such a page. *)
Definition board_outcome `{Platform}
    (fs fs' : gmap (list N) (gmap (list N) entry))
    (group : list N * list (list N)) (row : list N * (nat * nat)) : Prop :=
  row.1 = group.1
  ∧ ∃ l', fs' !! board_dir group.1 = Some l'
      ∧ row.2.1 = size (Path.stems l')
      ∧ row.2.1
        = (size (Path.stems (default ∅ (fs !! board_dir group.1)))
           + row.2.2)%nat
      ∧ (∀ url0 guid0 decision,
           url0 ∈ group.2 → _extract_guid url0 = Ok (Some guid0) →
           _download_decision url0 guid0 group.1 = Ok decision →
           guid0 ∈ Path.stems l')
      ∧ (∀ guid0,
           guid0 ∈ Path.stems l' →
           guid0 ∈ Path.stems (default ∅ (fs !! board_dir group.1))
           ∨ ∃ url0 decision,
               url0 ∈ group.2 ∧ _extract_guid url0 = Ok (Some guid0)
               ∧ _download_decision url0 guid0 group.1 = Ok decision).


(** ** A second small portal

    A sitemap index that lists itself, a sitemap with one address that
    [urlparse] rejects, and a page with a [<time>] element. *)

Module Demo2.

Definition loop_url : list N := u "https://q.dk/loop.xml".
Definition sitemap_url : list N := u "https://q.dk/sitemap.xml".
Definition ok_url : list N := u "https://q.dk/naevn/skat/afgoerelse/OK-1".

Definition loop_doc : element :=
  Element (u "sitemapindex") None
    [Element (u "sitemap") None
       [Element (u "loc") (Some (u "https://q.dk/loop.xml")) []]].

Definition sitemap_doc : element :=
  Element (u "urlset") None
    [ Element (u "url") None
        [Element (u "loc") (Some (u "https://q.dk/naevn/skat/afgoerelse/OK-1")) []];
      Element (u "url") None
        [Element (u "loc") (Some (u "https://[q.dk/afgoerelse/42")) []] ].

(** [<h1> Sag 1 </h1><time datetime="2023-05-01">1. maj 2023</time>]
    and a [<main>] with two paragraphs *)
Definition page : node :=
  Tag (u "[document]") []
    [ Tag (u "h1") [] [NavigableString (u " Sag 1 ")];
      Tag (u "time") [(u "datetime", u "2023-05-01")]
        [NavigableString (u "1. maj 2023")];
      Tag (u "main") []
        [ Tag (u "p") [] [NavigableString (u " Første afsnit. ")];
          NavigableString (u "
");
          Tag (u "p") [] [NavigableString (u "Andet afsnit.")] ] ].

Definition portal : Platform := {|
  session_get := fun url0 =>
    if Py.eqb url0 loop_url then Ok (mk_response 200 (u "loop") [])
    else if Py.eqb url0 sitemap_url then Ok (mk_response 200 (u "map") [])
    else if Py.eqb url0 ok_url then Ok (mk_response 200 [] (u "page"))
    else Raise (LibraryError (u "ConnectionError"));
  ET_fromstring := fun c =>
    if Py.eqb c (u "loop") then Ok loop_doc
    else if Py.eqb c (u "map") then Ok sitemap_doc
    else Raise (LibraryError (u "ParseError"));
  BeautifulSoup := fun _ => Ok page;
  strptime := fun value fmt =>
    if Py.eqb value (u "2023-05-01") && Py.eqb fmt (u "%Y-%m-%d")
    then Some (mk_datetime 2023 5 1 0 0 0 None)
    else None;
  netloc_ok := fun _ => true;
  recursion_limit := 1000
|}.

End Demo2.

(** ** A third small portal

    One sitemap with five addresses of two boards: a page whose fetch
    raises, a page that answers 404, a page whose markup the parser
    rejects, and two pages that are in order. *)

Module Demo3.

Definition sitemap_url : list N := u "https://r.dk/sitemap.xml".
Definition gone_url : list N := u "https://r.dk/naevn/skat/afgoerelse/S-0".
Definition missing_url : list N := u "https://r.dk/naevn/skat/afgoerelse/S-1".
Definition garbled_url : list N := u "https://r.dk/naevn/skat/afgoerelse/S-2".
Definition skat_url : list N := u "https://r.dk/naevn/skat/afgoerelse/S-3".
Definition miljo_url : list N := u "https://r.dk/naevn/miljo/afgoerelse/M-1".

Definition urls : list (list N) :=
  [gone_url; missing_url; garbled_url; skat_url; miljo_url].

Definition sitemap_doc : element :=
  Element (u "urlset") None
    ((fun t => Element (u "url") None [Element (u "loc") (Some t) []])
       <$> urls).

(** [<h1>Sag</h1><article>tekst</article>] *)
Definition page : node :=
  Tag (u "[document]") []
    [ Tag (u "h1") [] [NavigableString (u "Sag")];
      Tag (u "article") [] [NavigableString (u "tekst")] ].

Definition portal : Platform := {|
  session_get := fun url0 =>
    if Py.eqb url0 sitemap_url then Ok (mk_response 200 (u "map") [])
    else if Py.eqb url0 missing_url
    then Ok (mk_response 404 [] (u "not found"))
    else if Py.eqb url0 garbled_url
    then Ok (mk_response 200 [] (u "<![foo]>"))
    else if Py.eqb url0 skat_url || Py.eqb url0 miljo_url
    then Ok (mk_response 200 [] (u "page"))
    else Raise (LibraryError (u "ConnectionError"));
  ET_fromstring := fun c =>
    if Py.eqb c (u "map") then Ok sitemap_doc
    else Raise (LibraryError (u "ParseError"));
  BeautifulSoup := fun t =>
    if Py.eqb t (u "<![foo]>")
    then Raise (LibraryError (u "ParserRejectedMarkup"))
    else Ok page;
  strptime := fun _ _ => None;
  netloc_ok := fun _ => true;
  recursion_limit := 1000
|}.

Definition grouped : list (list N * list (list N)) :=
  [ (u "Skat", [gone_url; missing_url; garbled_url; skat_url]);
    (u "Miljo", [miljo_url]) ].

(** An archive in which the file name of decision [M-1] is taken by a
    directory. *)
Definition blocked_archive : gmap (list N) (gmap (list N) entry) :=
  {[ u "Miljo afgørelser" := {[ u "M-1.txt" := Directory ]} ]}.

End Demo3.

(** * Properties *)

(** ** The model on small inputs *)

Example u_ascii : u "nyhed" = [110; 121; 104; 101; 100].
Proof. reflexivity. Qed.

Example u_latin1 : u "nævn" = [110; 230; 118; 110].
Proof. reflexivity. Qed.

Example split_slashes :
  Py.split 47 (u "/a//b/") = [u ""; u "a"; u ""; u "b"; u ""].
Proof. reflexivity. Qed.

Example replace_left_to_right :
  Py.replace (u "aa") (u "b") (u "aaaxaa") = u "baxb".
Proof. reflexivity. Qed.

Example split_ws_runs : Py.split_ws (u "  to   ord ") = [u "to"; u "ord"].
Proof. reflexivity. Qed.

Example capitalize_word : Py.capitalize (u "øSTRE") = u "Østre".
Proof. reflexivity. Qed.

Example of_N_500 : Py.of_N 500 = u "500" /\ Py.of_N 0 = u "0" /\ Py.of_N 1024 = u "1024".
Proof. repeat split; reflexivity. Qed.

Example utf8_truncated :
  Py.utf8_decode [226; 130; 65] = [65533; 65] /\
  Py.utf8_decode [226; 130; 172] = [8364] /\
  Py.utf8_decode [240; 159; 152; 128] = [128512] /\
  Py.utf8_decode [192; 128] = [65533; 65533].
Proof. repeat split; reflexivity. Qed.

Example unquote_ae : Url.unquote (u "n%C3%A6vn%20x%zz%4") = u "nævn x%zz%4".
Proof. reflexivity. Qed.

(** ** Strings *)

Lemma has_char_elem (c : N) (s : list N) : Py.has_char c s = true ↔ c ∈ s.
Proof.
  unfold Py.has_char. rewrite existsb_exists. split.
  - intros (x & Hin & Heq). apply N.eqb_eq in Heq. subst x.
    by apply list_elem_of_In.
  - intros Hin. exists c. split; [by apply list_elem_of_In | apply N.eqb_refl].
Qed.

Lemma has_char_false (c : N) (s : list N) : Py.has_char c s = false ↔ c ∉ s.
Proof.
  rewrite <- has_char_elem. destruct (Py.has_char c s); naive_solver.
Qed.

Lemma elem_of_filterb {A : Type} (f : A → bool) (l : list A) (x : A) :
  x ∈ List.filter f l ↔ f x = true ∧ x ∈ l.
Proof. rewrite !list_elem_of_In, filter_In. tauto. Qed.

Lemma elem_of_take_list {A : Type} (n : nat) (l : list A) (x : A) :
  x ∈ take n l → x ∈ l.
Proof.
  intros (i & Hi & _)%elem_of_take. by eapply list_elem_of_lookup_2.
Qed.

Lemma eqb_eq (a b : list N) : Py.eqb a b = true ↔ a = b.
Proof. unfold Py.eqb. apply bool_decide_eq_true. Qed.

Lemma eqb_reflect (a b : list N) : reflect (a = b) (Py.eqb a b).
Proof. unfold Py.eqb. apply bool_decide_reflect. Qed.

Lemma eqb_nil_false (a : list N) : negb (Py.eqb a []) = true ↔ a ≠ [].
Proof.
  unfold Py.eqb. rewrite negb_true_iff, bool_decide_eq_false. done.
Qed.





(** ** Decimal digits *)

Lemma decimal_value_snoc (s : list N) (c : N) :
  decimal_value (s ++ [c]) = 10 * decimal_value s + (c - 48).
Proof. unfold decimal_value. by rewrite foldl_app. Qed.


Lemma one_digit (n : N) (acc : list N) :
  n < 10 →
  ∃ ds, (48 + n mod 10) :: acc = ds ++ acc
        ∧ Forall (λ c, 48 <= c <= 57) ds
        ∧ decimal_value ds = n
        ∧ (1 ≤ length ds)%nat
        ∧ ((1 < length ds)%nat → head ds ≠ Some 48).
Proof.
  intros Hn. rewrite (N.mod_small n 10 Hn). exists [48 + n].
  split; [done|]. split; [constructor; [lia|done]|].
  split; [unfold decimal_value; cbn [foldl]; lia|]. simpl. split; lia.
Qed.

Lemma digits_from_spec (fuel : nat) :
  ∀ n acc, n < 2 ^ N.of_nat (S fuel) →
    ∃ ds, Py.digits_from fuel n acc = ds ++ acc
          ∧ Forall (λ c, 48 <= c <= 57) ds
          ∧ decimal_value ds = n
          ∧ (1 ≤ length ds)%nat
          ∧ ((1 < length ds)%nat → head ds ≠ Some 48).
Proof.
  induction fuel as [|fuel IH]; intros n acc Hn.
  - apply one_digit. change (2 ^ N.of_nat 1) with 2 in Hn. lia.
  - cbn [Py.digits_from].
    destruct (N.eqb_spec (n / 10) 0) as [Hz|Hnz].
    + apply one_digit. by apply N.div_small_iff in Hz.
    + assert (Hdiv : n / 10 < 2 ^ N.of_nat (S fuel)).
      { apply N.Div0.div_lt_upper_bound.
        rewrite Nat2N.inj_succ, N.pow_succ_r' in Hn. lia. }
      destruct (IH (n / 10) ((48 + n mod 10) :: acc) Hdiv)
        as (ds & -> & Hdigits & Hvalue & Hlen & Hhead).
      assert (Hd : n mod 10 < 10) by (apply N.mod_upper_bound; lia).
      pose proof (N.div_mod' n 10) as Hdm.
      revert Hd Hdm Hnz Hvalue. generalize (n mod 10), (n / 10).
      intros m q Hd Hdm Hnz Hvalue.
      exists (ds ++ [48 + m]). split; [by rewrite <- app_assoc|].
      split; [apply Forall_app; split; [done|constructor; [lia|done]]|].
      split; [rewrite decimal_value_snoc, Hvalue; lia|].
      rewrite length_app. simpl. split; [lia|]. intros _.
      destruct ds as [|c [|c' ds]]; [simpl in Hlen; lia| |].
      * simpl. intros [= ->]. apply Hnz. rewrite <- Hvalue. done.
      * apply Hhead. simpl. lia.
Qed.

(** [str(n)] is the decimal writing of [n] without a zero in front. *)
Lemma of_N_decimal (n : N) : decimal 1 n (Py.of_N n).
Proof.
  destruct (digits_from_spec (N.to_nat (N.log2 n)) n []) as (ds & Hds & ?).
  - rewrite Nat2N.inj_succ, N2Nat.id.
    destruct (N.eq_dec n 0) as [->|Hn]; [done|].
    apply N.log2_spec. lia.
  - unfold Py.of_N. rewrite Hds, app_nil_r. done.
Qed.




(** ** Text form of a decision *)


(** A decision with a timestamp that has an offset of an hour and a half,
    and its text. *)
Example as_text_demo :
  as_text (mk_Decision (u "A-1") (u "Skat") (u "https://p.dk/a") (u "Sag 1")
             (Some (mk_datetime 2023 5 1 9 30 0 (Some 5400000000%Z)))
             (u " tekst "))
  = u "GUID: A-1
Board: Skat
Published: 2023-05-01T09:30:00+01:30
Source: https://p.dk/a

Sag 1
=====

tekst
".
Proof. vm_compute. reflexivity. Qed.

(** ** [urlparse] and the classifier *)

Lemma split1_fst_elem (c : N) (s : list N) (x : N) :
  x ∈ (Py.split1 c s).1 → x ∈ s ∧ x ≠ c.
Proof.
  induction s as [|a s IH]; simpl; [by intros ?%elem_of_nil|].
  destruct (a =? c) eqn:Hac; simpl; [by intros ?%elem_of_nil|].
  destruct (Py.split1 c s) as [l r]; simpl in *.
  apply N.eqb_neq in Hac.
  intros [->|Hx]%elem_of_cons; [split; [left|done]|].
  destruct (IH Hx). split; [by right|done].
Qed.

Lemma split_elem (sep : N) (s seg : list N) (x : N) :
  seg ∈ Py.split sep s → x ∈ seg → x ∈ s ∧ x ≠ sep.
Proof.
  revert seg. induction s as [|a s IH]; simpl; intros seg Hseg Hx.
  - apply list_elem_of_singleton in Hseg. subst. by apply elem_of_nil in Hx.
  - destruct (a =? sep) eqn:Has.
    + apply elem_of_cons in Hseg as [->|Hseg]; [by apply elem_of_nil in Hx|].
      destruct (IH _ Hseg Hx). split; [by right|done].
    + apply N.eqb_neq in Has.
      destruct (Py.split sep s) as [|w ws] eqn:Hsp.
      * apply list_elem_of_singleton in Hseg. subst seg.
        apply list_elem_of_singleton in Hx. subst x. split; [left|done].
      * apply elem_of_cons in Hseg as [->|Hseg].
        -- apply elem_of_cons in Hx as [->|Hx]; [split; [left|done]|].
           destruct (IH w) as [? ?]; [left|done|]. split; [by right|done].
        -- destruct (IH seg) as [? ?]; [by right|done|]. split; [by right|done].
Qed.

Lemma split_no_sep (sep : N) (s : list N) : sep ∉ s → Py.split sep s = [s].
Proof.
  induction s as [|a s IH]; simpl; [done|]. intros Hn.
  apply not_elem_of_cons in Hn as [Hne Hn].
  destruct (N.eqb_spec a sep) as [->|_]; [done|]. by rewrite (IH Hn).
Qed.

Lemma splitparams_fst_elem (s : list N) (x : N) :
  x ∈ (Url.splitparams s).1 → x ∈ s.
Proof.
  unfold Url.splitparams.
  destruct (Py.rfind 47 s) as [j|].
  - destruct (Py.find 59 (drop j s)) as [k|]; simpl; [|done].
    apply elem_of_take_list.
  - destruct (Py.find 59 s) as [i|]; simpl; [|done].
    apply elem_of_take_list.
Qed.

Section ClassifierFacts.
Context `{Platform}.

(** The path of a parsed URL holds neither [?] nor [#]: the query and
    the fragment were split off. *)
Lemma urlparse_path_clean (url0 : list N) (parsed : Url.ParseResult) :
  Url.urlparse url0 = Ok parsed →
  63 ∉ Url.path parsed ∧ 35 ∉ Url.path parsed.
Proof.
  unfold Url.urlparse, Url.urlsplit.
  destruct (Url.split_scheme _) as [scheme url2].
  set (r := if Py.startswith _ url2 then _ else _).
  destruct r as [[netloc url3]|e]; simpl; [|done].
  set (p4 := if Py.has_char 35 url3 then _ else _).
  assert (H4 : 35 ∉ p4.1).
  { subst p4. destruct (Py.has_char 35 url3) eqn:Hh; simpl.
    - by intros [_ Hne]%split1_fst_elem.
    - by apply has_char_false. }
  destruct p4 as [url4 fragment]. simpl in H4.
  set (p5 := if Py.has_char 63 url4 then _ else _).
  assert (H5 : 63 ∉ p5.1 ∧ 35 ∉ p5.1).
  { subst p5. destruct (Py.has_char 63 url4) eqn:Hh; simpl.
    - split; intros [Hin Hne]%split1_fst_elem; [done | by apply H4].
    - split; [by apply has_char_false|done]. }
  destruct p5 as [url5 query]. simpl in H5.
  destruct (netloc_ok netloc); simpl; [|done].
  set (pp := if _ && _ then _ else _).
  assert (Hpp : ∀ x, x ∈ pp.1 → x ∈ url5).
  { subst pp. destruct (_ && _); simpl; [|done].
    intros x. apply splitparams_fst_elem. }
  destruct pp as [path params]. simpl in Hpp.
  intros [= <-]. simpl. destruct H5 as [Hq Hf].
  split; intros Hx%Hpp; done.
Qed.

Lemma segments_elem (path seg : list N) :
  seg ∈ segments path → seg ≠ [] ∧ 47 ∉ seg ∧ ∀ x, x ∈ seg → x ∈ path.
Proof.
  unfold segments. rewrite elem_of_filterb. intros [Hne Hseg].
  apply eqb_nil_false in Hne. split; [done|]. split.
  - intros Hx. by destruct (split_elem _ _ _ _ Hseg Hx).
  - intros x Hx. by destruct (split_elem _ _ _ _ Hseg Hx).
Qed.

Lemma before_absent (c : N) (s : list N) : c ∉ s → before c s = s.
Proof. intros Hc. unfold before. by rewrite split_no_sep. Qed.

(** C5, as the code has it.  For a URL that [urlparse] accepts, the
    identifier is the last non-empty segment of the URL's path; the path
    holds neither the query string nor the fragment, so the identifier is
    free of [/], [?] and [#]; nothing is returned exactly when the path
    has no non-empty segment.  (On a string that [urlparse] rejects the
    function raises.) *)
Theorem extract_guid_last_segment (url0 : list N) (parsed : Url.ParseResult) :
  Url.urlparse url0 = Ok parsed →
  _extract_guid url0 = Ok (last (segments (Url.path parsed)))
  ∧ (_extract_guid url0 = Ok None ↔ segments (Url.path parsed) = [])
  ∧ (∀ g, _extract_guid url0 = Ok (Some g) →
          g ≠ [] ∧ 47 ∉ g ∧ 63 ∉ g ∧ 35 ∉ g).
Proof.
  intros Hparse.
  destruct (urlparse_path_clean _ _ Hparse) as [Hq Hf].
  assert (Hlast : ∀ g, last (segments (Url.path parsed)) = Some g →
            g ≠ [] ∧ 47 ∉ g ∧ 63 ∉ g ∧ 35 ∉ g).
  { intros g Hg. apply last_Some_elem_of, segments_elem in Hg
      as (Hne & Hslash & Hsub). naive_solver. }
  assert (Heq : _extract_guid url0 = Ok (last (segments (Url.path parsed)))).
  { unfold _extract_guid. rewrite Hparse. simpl.
    destruct (last (segments (Url.path parsed))) as [g|] eqn:Hg; [|done].
    destruct (Hlast g eq_refl) as (Hne & _ & Hq' & Hf').
    rewrite (before_absent 63 g Hq'), (before_absent 35 g Hf').
    destruct g; done. }
  split; [done|]. rewrite Heq. split.
  - split.
    + intros [= Hl]. by apply last_None in Hl.
    + intros ->. done.
  - intros g [= Hl]. by apply Hlast.
Qed.

Lemma lstrip_suffix (s : list N) : ∃ pre, s = pre ++ Py.lstrip s.
Proof.
  induction s as [|c s [pre IH]]; simpl; [by exists []|].
  destruct (Py.isspace c); [|by exists []].
  exists (c :: pre). simpl. by f_equal.
Qed.

Lemma lstrip_head (s : list N) (c : N) (t : list N) :
  Py.lstrip s = c :: t → Py.isspace c = false.
Proof.
  induction s as [|a s IH]; simpl; [done|].
  destruct (Py.isspace a) eqn:Ha; [done|]. by intros [= <- _].
Qed.

Lemma strip_head (s : list N) (c : N) (t : list N) :
  Py.strip s = c :: t → Py.isspace c = false.
Proof.
  unfold Py.strip, Py.rstrip. intros Hs.
  destruct (lstrip_suffix (rev (Py.lstrip s))) as [pre Hpre].
  apply (f_equal (@rev N)) in Hpre.
  rewrite rev_involutive, rev_app_distr, Hs in Hpre. simpl in Hpre.
  by apply lstrip_head in Hpre.
Qed.

Lemma words_from_first (cur s : list N) :
  cur ≠ [] → ∃ w ws, Py.words_from cur s = w :: ws ∧ w ≠ [].
Proof.
  revert cur. induction s as [|c s IH]; intros cur Hcur; simpl.
  - destruct cur as [|a cur]; [done|]. eexists _, _. split; [done|].
    simpl. by destruct (rev cur).
  - destruct (Py.isspace c); [|by apply IH].
    destruct cur as [|a cur]; [done|]. eexists _, _. split; [done|].
    simpl. by destruct (rev cur).
Qed.

Lemma capitalize_nonempty (w : list N) : w ≠ [] → Py.capitalize w ≠ [].
Proof.
  destruct w as [|c w]; [done|]. intros _. simpl. unfold Py.title_cp.
  repeat (case_match; [done|]). done.
Qed.

Lemma join_first_nonempty (sep w : list N) (ws : list (list N)) :
  w ≠ [] → Py.join sep (w :: ws) ≠ [].
Proof. destruct w; [done|]. intros _. by destruct ws. Qed.

(** C6, as the code has it.  On every URL that [urlparse] accepts the
    board derivation returns a board, and the board is not empty when the
    URL has a host.  When the path has no segment the slug is the host, and
    when the slug is empty after cleaning the board is the host itself,
    empty or not. *)
Theorem derive_board_name_total (url0 : list N) (parsed : Url.ParseResult) :
  Url.urlparse url0 = Ok parsed →
  ∃ b, _derive_board_name url0 = Ok b
       ∧ (Url.netloc parsed ≠ [] → b ≠ [])
       ∧ (segments (Url.path parsed) = [] →
          board_slug parsed = Url.netloc parsed)
       ∧ (clean_slug (board_slug parsed) = [] → b = Url.netloc parsed).
Proof.
  intros Hparse. unfold _derive_board_name. rewrite Hparse. simpl.
  assert (Hslug : segments (Url.path parsed) = [] →
                  board_slug parsed = Url.netloc parsed).
  { unfold board_slug. by intros ->. }
  destruct (clean_slug (board_slug parsed)) as [|c t] eqn:Hcl; [by eauto|].
  eexists. split; [done|]. split; [|by split]. intros _.
  pose proof (strip_head _ _ _ Hcl) as Hc.
  unfold Py.split_ws. simpl. rewrite Hc.
  destruct (words_from_first [c] t) as (w & ws & -> & Hw); [done|].
  rewrite fmap_cons. apply join_first_nonempty. by apply capitalize_nonempty.
Qed.

End ClassifierFacts.

Lemma extract_guid_last_segment_witness :
  @_extract_guid Demo.portal
    (u "https://afgoerelsesportalen.dk/nævn/skatterådet/afgoerelse/ABC-123?x=1#y")
  = Ok (Some (u "ABC-123")).
Proof.
  pose proof (@extract_guid_last_segment Demo.portal
    (u "https://afgoerelsesportalen.dk/nævn/skatterådet/afgoerelse/ABC-123?x=1#y")
    (Url.mk_ParseResult (u "https") (u "afgoerelsesportalen.dk")
       (u "/nævn/skatterådet/afgoerelse/ABC-123") [] (u "x=1") (u "y"))
    eq_refl) as [Heq _].
  rewrite Heq. reflexivity.
Defined.

(** A string with an unbalanced bracket in its host has no identifier:
    [urlparse] raises on it, and [_extract_guid] with it. *)
Lemma extract_guid_counterexample :
  @_extract_guid Demo.portal (u "https://[p.dk/afgoerelse/42")
  = Raise (ValueError (u "Invalid IPv6 URL")).
Proof. reflexivity. Qed.

(** The board of a URL without a host whose slug cleans to nothing is the
    empty string, and a URL with an unbalanced bracket in its host has no
    board at all: [urlparse] raises. *)
Lemma derive_board_name_counterexample :
  @_derive_board_name Demo.portal (u "file:///-/afgoerelse/42") = Ok []
  ∧ @_derive_board_name Demo.portal (u "https://[p.dk/afgoerelse/42")
    = Raise (ValueError (u "Invalid IPv6 URL")).
Proof. split; reflexivity. Qed.

Lemma derive_board_name_total_witness :
  ∃ b, @_derive_board_name Demo.portal Demo.a1_url = Ok b ∧ b ≠ [].
Proof.
  destruct (@derive_board_name_total Demo.portal Demo.a1_url
    (Url.mk_ParseResult (u "https") (u "p.dk")
       (u "/naevn/skat/afgoerelse/A-1") [] [] [])
    eq_refl) as (b & Hb & Hne & _).
  exists b. split; [exact Hb | apply Hne; discriminate].
Defined.

(** ** Sitemap walk *)

(** Line 142: the root is made when it is missing, and nothing else
    changes. *)
Lemma mkdir_root (fs : gmap (list N) (gmap (list N) entry)) :
  ∃ fs0, Path.mkdir Path.root fs = (fs0, Ok tt)
         ∧ is_Some (fs0 !! Path.root)
         ∧ (∀ dir, dir ≠ Path.root → fs0 !! dir = fs !! dir)
         ∧ (is_Some (fs !! Path.root) → fs0 = fs).
Proof.
  unfold Path.mkdir. change (Path.conversion_error Path.root) with (@None exn).
  change (Path.too_long Path.root) with false. cbv iota.
  destruct (fs !! Path.root) as [l|] eqn:Hroot.
  - exists fs. rewrite Hroot. eauto.
  - eexists. split; [done|]. rewrite lookup_insert_eq. split; [eauto|].
    split; [|by intros [? ?]].
    intros dir Hne. by rewrite lookup_insert_ne.
Qed.

Section WalkerFacts.
Context `{Platform}.

Lemma walk_served (depth : nat) (url0 : list N) (root : element) :
  serves url0 root →
  _iterate_sitemap_urls (S depth) url0 =
    let tag := _strip_namespace (tag_of root) in
    if Py.eqb tag (u "sitemapindex") then
      concat_results (_iterate_sitemap_urls depth <$> index_children root)
    else if negb (Py.eqb tag (u "urlset")) then
      Raise (SitemapError
               (u "Unsupported sitemap type '" ++ tag ++ u "' at " ++ url0))
    else Ok (urlset_links root).
Proof.
  intros (r & Hget & Hstatus & Hxml). simpl. rewrite Hget. simpl.
  destruct (N.leb_spec 400 (status_code r)) as [Hle|_]; [lia|].
  rewrite Hxml. reflexivity.
Qed.

Lemma walk_urlset (depth : nat) (url0 : list N) (root : element) :
  urlset_at url0 root →
  _iterate_sitemap_urls (S depth) url0 = Ok (urlset_links root).
Proof.
  intros [Hserves Htag]. rewrite (walk_served _ _ _ Hserves). simpl.
  rewrite Htag. reflexivity.
Qed.

Lemma concat_results_ok (f : list N → result (list (list N)))
    (cs : list (list N)) (ls : list (list (list N))) :
  Forall2 (λ c l, f c = Ok l) cs ls →
  concat_results (f <$> cs) = Ok (concat ls).
Proof.
  induction 1 as [|c l cs ls Hc _ IH]; [done|].
  rewrite fmap_cons. simpl. rewrite Hc. simpl. rewrite IH. done.
Qed.

Lemma concat_results_raise (f : list N → result (list (list N)))
    (cs : list (list N)) (c : list N) (e : exn) :
  c ∈ cs → f c = Raise e → ∃ e', concat_results (f <$> cs) = Raise e'.
Proof.
  intros Hin Hc. induction Hin as [c cs|c c' cs Hin IH].
  - rewrite fmap_cons. simpl. rewrite Hc. by eexists.
  - rewrite fmap_cons. simpl. destruct (f c'); simpl; [|by eexists].
    destruct (IH Hc) as [e' ->]. by eexists.
Qed.

Lemma urlset_links_elem (root : element) (link : list N) :
  link ∈ urlset_links root ↔
  (∃ e t, e ∈ findall_loc root ∧ text_of e = Some t ∧ t ≠ []
          ∧ link = Py.strip t)
  ∧ _looks_like_decision link = true.
Proof.
  unfold urlset_links. rewrite elem_of_filterb, list_elem_of_fmap.
  split.
  - intros [Hlooks (e & -> & He)]. split; [|done].
    apply elem_of_filterb in He as [Htext He].
    apply eqb_nil_false in Htext.
    unfold stripped_text. destruct (text_of e) as [t|] eqn:Ht; [|done].
    exists e, t. done.
  - intros [(e & t & He & Ht & Hne & ->) Hlooks]. split; [done|].
    exists e. split.
    + unfold stripped_text. by rewrite Ht.
    + apply elem_of_filterb. split; [|done].
      apply eqb_nil_false. by rewrite Ht.
Qed.

(** C7, as the code has it.  Over a sitemap index whose children are
    [urlset] documents the walk yields the concatenation, in document
    order, of what each leaf yields; a leaf yields the stripped text of a
    [loc] entry exactly when that text, in lower case, contains
    [/afgoerelse/] or [/nyhed/] anywhere (not only in the URL's path). *)
Theorem sitemap_walk_filter (depth : nat) (url0 : list N) (root : element)
    (leaves : list element) :
  serves url0 root →
  _strip_namespace (tag_of root) = u "sitemapindex" →
  Forall2 urlset_at (index_children root) leaves →
  _iterate_sitemap_urls (S (S depth)) url0
    = Ok (concat (urlset_links <$> leaves))
  ∧ Forall2 (λ child leaf,
       _iterate_sitemap_urls (S depth) child = Ok (urlset_links leaf))
      (index_children root) leaves
  ∧ ∀ leaf link,
      link ∈ urlset_links leaf ↔
        (∃ e t, e ∈ findall_loc leaf ∧ text_of e = Some t ∧ t ≠ []
                ∧ link = Py.strip t)
        ∧ (Py.contains (u "/afgoerelse/") (Py.lower link) = true
           ∨ Py.contains (u "/nyhed/") (Py.lower link) = true).
Proof.
  intros Hserves Htag Hleaves.
  assert (Hwalks : Forall2 (λ child leaf,
            _iterate_sitemap_urls (S depth) child = Ok (urlset_links leaf))
            (index_children root) leaves).
  { eapply Forall2_impl; [exact Hleaves|]. intros c l Hc. by apply walk_urlset. }
  split; [|split; [done|]].
  - rewrite (walk_served _ _ _ Hserves). cbv zeta. rewrite Htag.
    change (Py.eqb (u "sitemapindex") (u "sitemapindex")) with true.
    cbv iota. apply concat_results_ok.
    by apply Forall2_fmap_r.
  - intros leaf link. rewrite urlset_links_elem.
    unfold _looks_like_decision. by rewrite orb_true_iff.
Qed.

(** C4.  A sitemap whose fetch answers with a status of 400 or more makes
    the walk raise [SitemapError] with the URL and the status in its
    message; a root that is neither [sitemapindex] nor [urlset] makes it
    raise [SitemapError] with the tag and the URL; a failure of a child
    sitemap fails the walk of the index; and when the walk raises, the run
    raises the same exception and leaves the archive as it was but for the
    root, which it has made if it was missing: no directory of a board is
    made and no file is written. *)
Theorem sitemap_errors_abort :
  (∀ depth url0 r,
     session_get url0 = Ok r → 400 <= status_code r →
     _iterate_sitemap_urls (S depth) url0 =
       Raise (SitemapError (u "Failed to fetch sitemap " ++ url0
                              ++ u ": HTTP " ++ Py.of_N (status_code r))))
  ∧ (∀ depth url0 root,
       serves url0 root →
       _strip_namespace (tag_of root) ≠ u "sitemapindex" →
       _strip_namespace (tag_of root) ≠ u "urlset" →
       _iterate_sitemap_urls (S depth) url0 =
         Raise (SitemapError
                  (u "Unsupported sitemap type '"
                     ++ _strip_namespace (tag_of root) ++ u "' at " ++ url0)))
  ∧ (∀ depth url0 root child e,
       serves url0 root →
       _strip_namespace (tag_of root) = u "sitemapindex" →
       child ∈ index_children root →
       _iterate_sitemap_urls depth child = Raise e →
       ∃ e', _iterate_sitemap_urls (S depth) url0 = Raise e')
  ∧ (∀ sitemap_url e fs,
       _iterate_sitemap_urls recursion_limit sitemap_url = Raise e →
       ∃ fs', update_decision_knowledge sitemap_url fs = (fs', Raise e)
              ∧ (∀ dir, dir ≠ Path.root → fs' !! dir = fs !! dir)
              ∧ (is_Some (fs !! Path.root) → fs' = fs)).
Proof.
  repeat split.
  - intros depth url0 r Hget Hstatus. simpl. rewrite Hget. simpl.
    destruct (N.leb_spec 400 (status_code r)) as [_|Hlt]; [done|lia].
  - intros depth url0 root Hserves Hindex Hurlset.
    rewrite (walk_served _ _ _ Hserves). cbv zeta.
    destruct (Py.eqb _ (u "sitemapindex")) eqn:E1;
      [by apply eqb_eq in E1|].
    destruct (Py.eqb _ (u "urlset")) eqn:E2; [by apply eqb_eq in E2|].
    reflexivity.
  - intros depth url0 root child e Hserves Htag Hchild Hraise.
    rewrite (walk_served _ _ _ Hserves). cbv zeta. rewrite Htag.
    change (Py.eqb (u "sitemapindex") (u "sitemapindex")) with true.
    cbv iota. by eapply concat_results_raise.
  - intros sitemap_url e fs Hraise.
    destruct (mkdir_root fs) as (fs0 & Hmk & _ & Hframe & Hsame).
    exists fs0. split; [|done].
    unfold update_decision_knowledge, io_bind, io_lift.
    by rewrite Hmk, Hraise.
Qed.

End WalkerFacts.

(** In the first leaf sitemap of the demo portal the contact page is
    yielded, though its path [/kontakt] holds no marker: the marker stands
    in its query string. *)
Lemma sitemap_walk_filter_counterexample :
  @_iterate_sitemap_urls Demo.portal 1 Demo.s1_url
    = Ok [Demo.a1_url; Demo.contact_url]
  ∧ ∃ parsed, @Url.urlparse Demo.portal Demo.contact_url = Ok parsed
      ∧ Url.path parsed = u "/kontakt"
      ∧ Py.contains (u "/afgoerelse/") (Url.path parsed) = false
      ∧ Py.contains (u "/nyhed/") (Url.path parsed) = false.
Proof.
  split; [vm_compute; reflexivity|].
  exists (Url.mk_ParseResult (u "https") (u "p.dk") (u "/kontakt") []
            (u "retur=/afgoerelse/7") []).
  repeat split; vm_compute; reflexivity.
Qed.

Lemma sitemap_walk_filter_witness :
  @_iterate_sitemap_urls Demo.portal 2 Demo.sitemap_url
    = Ok [Demo.a1_url; Demo.contact_url; Demo.n2_url; Demo.b404_url].
Proof.
  assert (Hs : ∀ url0 content0 root,
            @session_get Demo.portal url0 = Ok (mk_response 200 content0 []) →
            @ET_fromstring Demo.portal content0 = Ok root →
            @serves Demo.portal url0 root).
  { intros url0 content0 root Hget Hxml.
    exists (mk_response 200 content0 []). split; [exact Hget|].
    split; [reflexivity | exact Hxml]. }
  destruct (@sitemap_walk_filter Demo.portal 0 Demo.sitemap_url
              Demo.index_doc [Demo.s1_doc; Demo.s2_doc]) as [Hwalk _].
  - apply (Hs _ (u "index")); vm_compute; reflexivity.
  - vm_compute. reflexivity.
  - repeat constructor;
      try (apply (Hs _ (u "s1")); vm_compute; reflexivity);
      try (apply (Hs _ (u "s2")); vm_compute; reflexivity);
      vm_compute; reflexivity.
  - rewrite Hwalk. vm_compute. reflexivity.
Defined.

Lemma sitemap_errors_abort_witness :
  @_iterate_sitemap_urls Demo.portal 1 Demo.broken_url
    = Raise (SitemapError (u "Failed to fetch sitemap https://p.dk/broken.xml: HTTP 500"))
  ∧ @_iterate_sitemap_urls Demo.portal 1 Demo.feed_url
    = Raise (SitemapError (u "Unsupported sitemap type 'rss' at https://p.dk/feed.xml"))
  ∧ ∃ fs', @update_decision_knowledge Demo.portal Demo.broken_url ∅
           = (fs', Raise (SitemapError (u "Failed to fetch sitemap https://p.dk/broken.xml: HTTP 500")))
         ∧ ∀ dir, dir ≠ Path.root → fs' !! dir = None.
Proof.
  destruct (@sitemap_errors_abort Demo.portal) as (Hfetch & Hroot & _ & Hrun).
  split; [|split].
  - rewrite (Hfetch 0%nat Demo.broken_url (mk_response 500 [] []));
      [vm_compute; reflexivity | vm_compute; reflexivity
       | vm_compute; discriminate].
  - rewrite (Hroot 0%nat Demo.feed_url Demo.feed_doc);
      [vm_compute; reflexivity | | vm_compute; discriminate
       | vm_compute; discriminate].
    exists (mk_response 200 (u "feed") []).
    repeat split; vm_compute; reflexivity.
  - destruct (Hrun Demo.broken_url
                (SitemapError (u "Failed to fetch sitemap https://p.dk/broken.xml: HTTP 500"))
                ∅) as (fs' & Hfs' & Hframe & _); [vm_compute; reflexivity|].
    exists fs'. split; [exact Hfs'|].
    intros dir Hdir. rewrite (Hframe dir Hdir). apply lookup_empty.
Defined.

(** ** Title extraction *)

Example extract_title_og_before_h1 :
  _extract_title Demo.page_og_h1 = Some (u "T1").
Proof. vm_compute. reflexivity. Qed.

(** C8, where the code departs from it.  A page whose [og:title] content
    is a single space and whose [<title>] is [Real]: the content is tested
    before it is stripped, so the extractor returns the empty string
    instead of going on to [<title>], and the decision gets the synthetic
    title although a real one is on the page.  The [<h1>] branch tests the
    stripped text. *)
Theorem extract_title_blank_og_title :
  Soup.find (u "title") Demo.page_blank_og ≫= Soup.string = Some (u "Real")
  ∧ _extract_title Demo.page_blank_og = Some []
  ∧ ∃ d, @_download_decision Demo.portal Demo.contact_url (u "7")
           (u "Kontakt") = Ok d
         ∧ title d = u "Afgørelse 7".
Proof.
  split; [vm_compute; reflexivity|]. split; [vm_compute; reflexivity|].
  exists (mk_Decision (u "7") (u "Kontakt") Demo.contact_url
            (u "Afgørelse 7") None (u "Real")).
  split; vm_compute; reflexivity.
Qed.

(** ** File names and directory listings *)

Example name_lengths :
  Path.too_long (repeat 97 255) = false
  ∧ Path.too_long (repeat 97 256) = true
  ∧ Path.too_long (repeat 230 127) = false
  ∧ Path.too_long (repeat 230 128) = true.
Proof. repeat split; vm_compute; reflexivity. Qed.

Example name_conversion :
  Path.conversion_error (u "A-1.txt") = None
  ∧ Path.conversion_error [97; 0; 98] = Some (ValueError (u "embedded null byte"))
  ∧ Path.conversion_error [97; 55296; 0]
    = Some (LibraryError (u "UnicodeEncodeError"))
  ∧ Path.conversion_error [97; 56448; 98] = None.
Proof. repeat split; vm_compute; reflexivity. Qed.

(** A text with a surrogate cannot be written: the file is left empty. *)
Example write_text_surrogate :
  Path.write_text (u "d") (u "f.txt") [97; 55296]
    {[ u "d" := {[ u "f.txt" := File (u "old") ]} ]}
  = ({[ u "d" := {[ u "f.txt" := File [] ]} ]},
     Raise (LibraryError (u "UnicodeEncodeError"))).
Proof. vm_compute. reflexivity. Qed.

Lemma startswith_app (p s : list N) : Py.startswith p (p ++ s) = true.
Proof.
  induction p as [|a p IH]; simpl; [done|].
  by rewrite N.eqb_refl, IH.
Qed.

Lemma glob_txt_app (g : list N) : Path.glob_txt (g ++ u ".txt") = true.
Proof.
  unfold Path.glob_txt, Py.endswith. rewrite rev_app_distr.
  apply startswith_app.
Qed.

Lemma rfind_absent (c : N) (s : list N) : c ∉ s → Py.rfind c s = None.
Proof.
  induction s as [|a s IH]; simpl; [done|].
  intros [Hne Hs]%not_elem_of_cons. rewrite (IH Hs).
  destruct (N.eqb_spec a c); [congruence|done].
Qed.

Lemma rfind_last (c : N) (s t : list N) :
  c ∉ t → Py.rfind c (s ++ c :: t) = Some (length s).
Proof.
  intros Ht. induction s as [|a s IH]; simpl.
  - by rewrite (rfind_absent _ _ Ht), N.eqb_refl.
  - by rewrite IH.
Qed.

(** The stem of [<guid>.txt] is the identifier. *)
Lemma stem_txt (g : list N) : g ≠ [] → Path.stem (g ++ u ".txt") = g.
Proof.
  intros Hg. unfold Path.stem.
  change (u ".txt") with (46 :: [116; 120; 116]).
  rewrite rfind_last by (by apply has_char_false).
  destruct g as [|c g]; [done|]. cbn [length].
  rewrite length_app. cbn [length].
  destruct (Nat.ltb_spec (S (length g)) (S (length g) + 4 - 1)) as [_|Hge];
    [|lia].
  change (S (length g)) with (length (c :: g)).
  by rewrite take_app_length.
Qed.

Lemma stems_elem (l : gmap (list N) entry) (g : list N) :
  g ∈ Path.stems l ↔
  ∃ name data, l !! name = Some (File data)
               ∧ Path.glob_txt name = true ∧ Path.stem name = g.
Proof.
  unfold Path.stems. rewrite elem_of_list_to_set, list_elem_of_fmap. split.
  - intros (name & -> & Hname).
    apply list_elem_of_fmap in Hname as ([name' e] & -> & Hin).
    apply elem_of_filterb in Hin as [Hok Hin]. simpl in *.
    apply andb_true_iff in Hok as [Hglob Hfile].
    apply elem_of_map_to_list in Hin.
    destruct e as [data|]; [|done]. eauto.
  - intros (name & data & Hl & Hglob & <-). exists name. split; [done|].
    apply list_elem_of_fmap. exists (name, File data). split; [done|].
    apply elem_of_filterb. simpl. rewrite Hglob. split; [done|].
    by apply elem_of_map_to_list.
Qed.

Lemma stems_mono (l l' : gmap (list N) entry) :
  l ⊆ l' → Path.stems l ⊆ Path.stems l'.
Proof.
  intros Hsub g. rewrite !stems_elem.
  intros (name & data & Hl & ?). exists name, data. split; [|done].
  by eapply lookup_weaken.
Qed.

Lemma file_in_stems (l : gmap (list N) entry) (g data : list N) :
  g ≠ [] → l !! (g ++ u ".txt") = Some (File data) → g ∈ Path.stems l.
Proof.
  intros Hg Hl. apply stems_elem. exists (g ++ u ".txt"), data.
  split; [done|]. split; [apply glob_txt_app | by apply stem_txt].
Qed.

Lemma stems_insert (l : gmap (list N) entry) (g data : list N) :
  g ≠ [] → l !! (g ++ u ".txt") = None →
  Path.stems (<[g ++ u ".txt" := File data]> l) = {[g]} ∪ Path.stems l.
Proof.
  intros Hg Hl. apply set_eq. intros x.
  rewrite elem_of_union, elem_of_singleton, !stems_elem. split.
  - intros (name & d & Hname & Hglob & Hstem).
    destruct (decide (name = g ++ u ".txt")) as [->|Hne].
    + left. by rewrite <- Hstem, stem_txt.
    + right. rewrite lookup_insert_ne in Hname by done. eauto.
  - intros [->|(name & d & Hname & Hglob & Hstem)].
    + exists (g ++ u ".txt"), data. rewrite lookup_insert_eq.
      split; [done|]. split; [apply glob_txt_app | by apply stem_txt].
    + exists name, d. split; [|done].
      rewrite lookup_insert_ne; [done|]. intros <-. congruence.
Qed.

(** ** The archive only grows *)

Lemma grows_refl (fs : gmap (list N) (gmap (list N) entry)) : grows fs fs.
Proof. intros dir l Hl. eauto. Qed.

Lemma grows_trans (fs1 fs2 fs3 : gmap (list N) (gmap (list N) entry)) :
  grows fs1 fs2 → grows fs2 fs3 → grows fs1 fs3.
Proof.
  intros H12 H23 dir l Hl.
  destruct (H12 _ _ Hl) as (l2 & Hl2 & Hsub2).
  destruct (H23 _ _ Hl2) as (l3 & Hl3 & Hsub3).
  exists l3. split; [done|]. by etrans.
Qed.

(** [mkdir] raises on a name the file system refuses and changes nothing
    then; otherwise the directory is there afterwards, with the content it
    had or empty, and no other directory has changed. *)
Lemma mkdir_spec (dir : list N) (fs fs' : gmap (list N) (gmap (list N) entry))
    (r : result unit) :
  Path.mkdir dir fs = (fs', r) →
  match r with
  | Ok _ =>
    grows fs fs' ∧ fs' !! dir = Some (default ∅ (fs !! dir))
    ∧ (∀ d, d ≠ dir → fs' !! d = fs !! d)
    ∧ (is_Some (fs !! dir) → fs' = fs)
  | Raise _ => fs' = fs
  end.
Proof.
  unfold Path.mkdir.
  destruct (Path.conversion_error dir); [by intros [= <- <-]|].
  destruct (Path.too_long dir); [by intros [= <- <-]|].
  destruct (fs !! dir) as [l|] eqn:Hdir; intros [= <- <-].
  - rewrite Hdir. split; [apply grows_refl|]. done.
  - split; [|split; [|split]].
    + intros d l Hl. exists l. split; [|done].
      rewrite lookup_insert_ne; [done|]. intros <-. congruence.
    + by rewrite lookup_insert_eq.
    + intros d Hne. by rewrite lookup_insert_ne.
    + by intros [? ?].
Qed.


(** ** The reconciler *)

Section ReconcilerFacts.
Context `{Platform}.

Lemma settled_mono (board dir : list N)
    (fs fs' : gmap (list N) (gmap (list N) entry)) (url0 : list N) :
  grows fs fs' → settled board dir fs url0 → settled board dir fs' url0.
Proof.
  intros Hgrows. unfold settled.
  destruct (_extract_guid url0) as [[[|c g]|]|]; try done.
  intros [(l & Hl & Hin)|Hfail]; [left|by right].
  destruct (Hgrows _ _ Hl) as (l' & Hl' & Hsub).
  exists l'. split; [done|]. by apply (stems_mono _ _ Hsub).
Qed.

(** The write of the file of an identifier outside the known-set: no
    entry of the archive is lost, no other directory changes, and when the
    write returns, the identifier is a stem of the directory. *)
Lemma write_text_spec (dir g data : list N) (existing : gset (list N))
    (fs fs' : gmap (list N) (gmap (list N) entry)) (r : result unit) :
  g ≠ [] → g ∉ existing → tracked dir existing fs →
  Path.write_text dir (g ++ u ".txt") data fs = (fs', r) →
  grows fs fs'
  ∧ (∀ d, d ≠ dir → fs' !! d = fs !! d)
  ∧ match r with
    | Ok _ =>
      tracked dir ({[g]} ∪ existing) fs'
      ∧ ∃ l, fs !! dir = Some l ∧ l !! (g ++ u ".txt") = None
             ∧ fs' = <[dir := <[g ++ u ".txt" := File data]> l]> fs
    | Raise _ => True
    end.
Proof.
  intros Hg Hnew (l & Hl & Hstems). unfold Path.write_text.
  destruct (Path.conversion_error (g ++ u ".txt"));
    [intros [= <- <-]; split; [apply grows_refl|done]|].
  rewrite Hl.
  destruct (Path.too_long (g ++ u ".txt"));
    [intros [= <- <-]; split; [apply grows_refl|done]|].
  destruct (l !! (g ++ u ".txt")) as [[old|]|] eqn:Hname.
  - exfalso. apply Hnew. rewrite <- Hstems. by eapply file_in_stems.
  - intros [= <- <-]. split; [apply grows_refl|done].
  - assert (Hins : ∀ v,
      grows fs (<[dir := <[g ++ u ".txt" := v]> l]> fs)
      ∧ ∀ d, d ≠ dir → (<[dir := <[g ++ u ".txt" := v]> l]> fs) !! d = fs !! d).
    { intros v. split.
      - intros d l0 Hd. destruct (decide (d = dir)) as [->|Hne].
        + rewrite lookup_insert_eq. eexists. split; [done|].
          assert (l0 = l) as -> by congruence. by apply insert_subseteq.
        + rewrite lookup_insert_ne by done. eauto.
      - intros d Hne. by rewrite lookup_insert_ne. }
    destruct (Py.encodable data); intros [= <- <-].
    + destruct (Hins (File data)) as [Hgrows Hframe].
      split; [done|]. split; [done|]. split.
      * eexists. rewrite lookup_insert_eq. split; [done|].
        rewrite <- Hstems. by apply stems_insert.
      * by exists l.
    + destruct (Hins (File [])) as [Hgrows Hframe]. done.
Qed.

(** One board, first run: the archive grows and every URL ends settled. *)
Lemma download_new_spec (board dir : list N) (urls : list (list N)) :
  ∀ existing added fs fs' r,
    tracked dir existing fs →
    download_new board dir urls existing added fs = (fs', r) →
    grows fs fs'
    ∧ match r with
      | Ok (existing', _) =>
        tracked dir existing' fs' ∧ Forall (settled board dir fs') urls
      | Raise _ => True
      end.
Proof.
  induction urls as [|url0 rest IH]; intros existing added fs fs' r Htr;
    cbn [download_new].
  - unfold io_ret. intros [= <- <-]. split; [apply grows_refl|]. done.
  - unfold io_bind, io_lift.
    destruct (_extract_guid url0) as [guid0|e] eqn:Hguid;
      [|intros [= <- <-]; split; [apply grows_refl|done]].
    assert (Hskip : ∀ fs1 existing1 added1,
      grows fs fs1 → tracked dir existing1 fs1 →
      (grows fs1 fs' → settled board dir fs' url0) →
      download_new board dir rest existing1 added1 fs1 = (fs', r) →
      grows fs fs'
      ∧ match r with
        | Ok (existing', _) =>
          tracked dir existing' fs'
          ∧ Forall (settled board dir fs') (url0 :: rest)
        | Raise _ => True
        end).
    { intros fs1 existing1 added1 Hg1 Htr1 Hsettled Hrest.
      destruct (IH _ _ _ _ _ Htr1 Hrest) as [Hg2 Hr].
      split; [by eapply grows_trans|].
      destruct r as [[existing' added']|]; [|done].
      destruct Hr as [Htr' Hall]. split; [done|].
      constructor; [by apply Hsettled|done]. }
    destruct guid0 as [[|c g]|].
    + apply Hskip; [apply grows_refl|done|].
      intros _. unfold settled. by rewrite Hguid.
    + case_bool_decide as Hknown.
      * apply Hskip; [apply grows_refl|done|].
        intros Hg. apply (settled_mono _ _ fs); [done|].
        unfold settled. rewrite Hguid. left.
        destruct Htr as (l & Hl & Hstems). exists l. by rewrite Hstems.
      * destruct (_download_decision url0 (c :: g) board)
          as [decision|exc] eqn:Hdl.
        -- destruct (Path.write_text dir ((c :: g) ++ u ".txt")
                       (as_text decision) fs) as [fs1 [[]|e]] eqn:Hw.
           ++ pose proof (write_text_spec dir (c :: g) _ _ _ _ _
                            ltac:(done) Hknown Htr Hw) as (Hg1 & _ & Htr1 & _).
              apply (Hskip fs1); [done|done|].
              intros Hg. apply (settled_mono _ _ fs1); [done|].
              unfold settled. rewrite Hguid. left.
              destruct Htr1 as (l1 & Hl1 & Hstems1). exists l1.
              split; [done|]. rewrite Hstems1.
              apply elem_of_union. left. by apply elem_of_singleton.
           ++ pose proof (write_text_spec dir (c :: g) _ _ _ _ _
                            ltac:(done) Hknown Htr Hw) as (Hg1 & _).
              intros [= <- <-]. done.
        -- apply Hskip; [apply grows_refl|done|].
           intros _. unfold settled. rewrite Hguid. right. eauto.
    + apply Hskip; [apply grows_refl|done|].
      intros _. unfold settled. by rewrite Hguid.
Qed.





(** One board of [sync_boards]: the directory is made, its stems are the
    known-set, the URLs are run, and the other boards follow only when
    nothing was raised. *)
Lemma sync_boards_cons (board : list N) (urls : list (list N))
    (rest : list (list N * list (list N)))
    (summary : list (list N * (nat * nat)))
    (fs : gmap (list N) (gmap (list N) entry)) :
  sync_boards ((board, urls) :: rest) summary fs
  = match Path.mkdir (board_dir board) fs with
    | (fs1, Ok _) =>
      match download_new board (board_dir board) urls
              (Path.stems (default ∅ (fs !! board_dir board))) 0 fs1 with
      | (fs2, Ok (existing_guids, added)) =>
        sync_boards rest
          (dict_set board (size existing_guids, added) summary) fs2
      | (fs2, Raise e) => (fs2, Raise e)
      end
    | (fs1, Raise e) => (fs1, Raise e)
    end.
Proof.
  cbn [sync_boards]. unfold io_bind at 1. fold (board_dir board).
  destruct (Path.mkdir (board_dir board) fs) as [fs1 [[]|e]] eqn:Hmk; [|done].
  pose proof (mkdir_spec _ _ _ _ Hmk) as (_ & Hl & _).
  unfold io_bind at 1. unfold Path.listdir. rewrite Hl.
  unfold io_bind.
  destruct (download_new _ _ _ _ _ fs1) as [fs2 [[existing added]|e]]; done.
Qed.




(** The run is the making of the root, the walk, the grouping and the loop
    over the boards. *)
Lemma run_steps (sitemap_url : list N)
    (fs : gmap (list N) (gmap (list N) entry)) :
  ∃ fs0,
    Path.mkdir Path.root fs = (fs0, Ok tt)
    ∧ grows fs fs0
    ∧ (∀ dir, dir ≠ Path.root → fs0 !! dir = fs !! dir)
    ∧ update_decision_knowledge sitemap_url fs
      = match _iterate_sitemap_urls recursion_limit sitemap_url with
        | Ok decision_urls =>
          match group_urls decision_urls [] with
          | Ok grouped => sync_boards grouped [] fs0
          | Raise e => (fs0, Raise e)
          end
        | Raise e => (fs0, Raise e)
        end.
Proof.
  destruct (mkdir_root fs) as (fs0 & Hmk & _ & Hframe & _).
  exists fs0. split; [done|].
  pose proof (mkdir_spec _ _ _ _ Hmk) as (Hgrows & _).
  split; [done|]. split; [done|].
  unfold update_decision_knowledge, io_bind, io_lift. rewrite Hmk.
  destruct (_iterate_sitemap_urls recursion_limit sitemap_url); [|done].
  by destruct (group_urls _ []).
Qed.

(** A run that raises in the walk or in the grouping has made the root,
    if it was missing, and nothing else. *)
Lemma run_raises_early (sitemap_url : list N) (e : exn)
    (fs : gmap (list N) (gmap (list N) entry)) :
  _iterate_sitemap_urls recursion_limit sitemap_url = Raise e
  ∨ (∃ decision_urls,
       _iterate_sitemap_urls recursion_limit sitemap_url = Ok decision_urls
       ∧ group_urls decision_urls [] = Raise e) →
  ∃ fs', update_decision_knowledge sitemap_url fs = (fs', Raise e)
         ∧ (∀ dir, dir ≠ Path.root → fs' !! dir = fs !! dir)
         ∧ (is_Some (fs !! Path.root) → fs' = fs).
Proof.
  intros Hearly.
  destruct (mkdir_root fs) as (fs0 & Hmk & _ & Hframe & Hsame).
  exists fs0. split; [|done].
  unfold update_decision_knowledge, io_bind, io_lift. rewrite Hmk.
  destruct Hearly as [->|(decision_urls & -> & ->)]; done.
Qed.



(** The loop over the URLs of a board, split in two. *)
Lemma download_new_app (board dir : list N) (xs ys : list (list N)) :
  ∀ existing added fs,
    download_new board dir (xs ++ ys) existing added fs
    = match download_new board dir xs existing added fs with
      | (fs1, Ok (existing1, added1)) =>
        download_new board dir ys existing1 added1 fs1
      | (fs1, Raise e) => (fs1, Raise e)
      end.
Proof.
  induction xs as [|x xs IH]; intros existing added fs; [done|].
  cbn [app download_new]. unfold io_bind, io_lift.
  destruct (_extract_guid x) as [[[|c g]|]|]; try done.
  case_bool_decide; [done|].
  destruct (_download_decision x (c :: g) board); [|done].
  destruct (Path.write_text _ _ _ fs) as [fs1 [[]|]]; done.
Qed.

(** The loop over the boards, split in two. *)
Lemma sync_boards_app (g1 g2 : list (list N * list (list N))) :
  ∀ summary fs,
    sync_boards (g1 ++ g2) summary fs
    = match sync_boards g1 summary fs with
      | (fs1, Ok summary1) => sync_boards g2 summary1 fs1
      | (fs1, Raise e) => (fs1, Raise e)
      end.
Proof.
  induction g1 as [|[b us] g1 IH]; intros summary fs; [done|].
  cbn [app sync_boards]. unfold io_bind.
  destruct (Path.mkdir _ fs) as [fs1 [[]|]]; [|done].
  destruct (Path.listdir _ fs1) as [fs2 [files|]]; [|done].
  destruct (download_new b _ us _ _ fs2) as [fs3 [[existing added]|]]; done.
Qed.

Lemma extract_guid_nonempty (url0 g : list N) :
  _extract_guid url0 = Ok (Some g) → g ≠ [].
Proof.
  unfold _extract_guid. destruct (Url.urlparse url0); [|done]. simpl.
  destruct (last _); [|done].
  destruct (before 35 (before 63 _)); [done|]. by intros [= <-].
Qed.

(** C10.  The write of a decision file is outside the handler of the
    download.  When the run has reached a URL whose download succeeds and
    the write of its file raises, the loop over the board's URLs ends with
    that exception, the URLs and boards after it are not tried, and
    [update_decision_knowledge] ends with the same exception instead of a
    summary. *)
Theorem write_failure_aborts (sitemap_url board url0 guid0 : list N)
    (decision_urls before after : list (list N))
    (groups_before groups_after : list (list N * list (list N)))
    (summary1 : list (list N * (nat * nat)))
    (fs_start fs0 fs1 fs2 fs fs' : gmap (list N) (gmap (list N) entry))
    (l : gmap (list N) entry) (existing : gset (list N)) (added : nat)
    (decision : Decision) (e : exn) :
  Path.mkdir Path.root fs_start = (fs0, Ok tt) →
  _iterate_sitemap_urls recursion_limit sitemap_url = Ok decision_urls →
  group_urls decision_urls []
    = Ok (groups_before ++ (board, before ++ url0 :: after) :: groups_after) →
  sync_boards groups_before [] fs0 = (fs1, Ok summary1) →
  Path.mkdir (board_dir board) fs1 = (fs2, Ok tt) →
  fs2 !! board_dir board = Some l →
  download_new board (board_dir board) before (Path.stems l) 0 fs2
    = (fs, Ok (existing, added)) →
  _extract_guid url0 = Ok (Some guid0) → guid0 ∉ existing →
  _download_decision url0 guid0 board = Ok decision →
  Path.write_text (board_dir board) (guid0 ++ u ".txt") (as_text decision) fs
    = (fs', Raise e) →
  download_new board (board_dir board) (url0 :: after) existing added fs
    = (fs', Raise e)
  ∧ update_decision_knowledge sitemap_url fs_start = (fs', Raise e).
Proof.
  intros Hroot Hwalk Hgroup Hbefore Hmkdir Hl Hurls Hguid Hnew Hdl Hwrite.
  assert (Hloop : download_new board (board_dir board) (url0 :: after)
                    existing added fs = (fs', Raise e)).
  { cbn [download_new]. unfold io_bind, io_lift. rewrite Hguid.
    pose proof (extract_guid_nonempty _ _ Hguid).
    destruct guid0 as [|c g]; [done|].
    rewrite bool_decide_false by done. rewrite Hdl, Hwrite. done. }
  split; [done|].
  unfold update_decision_knowledge, io_bind, io_lift.
  rewrite Hroot, Hwalk, Hgroup, sync_boards_app, Hbefore.
  cbn [sync_boards]. unfold io_bind. rewrite Hmkdir.
  unfold Path.listdir. rewrite Hl.
  by rewrite download_new_app, Hurls, Hloop.
Qed.

End ReconcilerFacts.

(** ** The demo portal, run *)

Example demo_first_run :
  (@update_decision_knowledge Demo.portal Demo.sitemap_url ∅).2
  = Ok [(u "Skat", (1, 1)); (u "Kontakt", (1, 1)); (u "Miljo", (1, 1))]%nat.
Proof. vm_compute. reflexivity. Qed.



Lemma write_failure_aborts_witness :
  @update_decision_knowledge Demo.portal Demo.sitemap_url Demo.blocked_archive
  = (<[Path.root := ∅]> Demo.blocked_archive,
     Raise (LibraryError (u "IsADirectoryError"))).
Proof.
  apply (@write_failure_aborts Demo.portal Demo.sitemap_url (u "Skat")
           Demo.a1_url (u "A-1")
           [Demo.a1_url; Demo.contact_url; Demo.n2_url; Demo.b404_url]
           [] [Demo.b404_url]
           [] [(u "Kontakt", [Demo.contact_url]); (u "Miljo", [Demo.n2_url])]
           [] Demo.blocked_archive
           (<[Path.root := ∅]> Demo.blocked_archive)
           (<[Path.root := ∅]> Demo.blocked_archive)
           (<[Path.root := ∅]> Demo.blocked_archive)
           (<[Path.root := ∅]> Demo.blocked_archive)
           (<[Path.root := ∅]> Demo.blocked_archive)
           {[ u "A-1.txt" := Directory ]}
           (Path.stems {[ u "A-1.txt" := Directory ]}) 0
           (mk_Decision (u "A-1") (u "Skat") Demo.a1_url (u "Titel") None
              (u "tekst"))
           (LibraryError (u "IsADirectoryError"))).
  - vm_compute. reflexivity.
  - vm_compute. reflexivity.
  - vm_compute. reflexivity.
  - reflexivity.
  - vm_compute. reflexivity.
  - vm_compute. reflexivity.
  - reflexivity.
  - vm_compute. reflexivity.
  - rewrite stems_elem. intros (name & data & Hname & _).
    apply lookup_singleton_Some in Hname as [_ Hdir]. discriminate.
  - vm_compute. reflexivity.
  - vm_compute. reflexivity.
Defined.

Example demo_blocked_run :
  (@update_decision_knowledge Demo.portal Demo.sitemap_url
     Demo.blocked_archive).2
  = Raise (LibraryError (u "IsADirectoryError")).
Proof. vm_compute. reflexivity. Qed.

(** ** Summary report *)

Example format_summary_demo :
  _format_summary [(u "Skat", (2, 1)); (u "Miljo", (1, 0))]%nat
  = u "Synkronisering fuldført:
- Miljo: 1 sager i alt (0 nye)
- Skat: 2 sager i alt (1 nye)

I alt 3 sager i arkivet, 1 nye".
Proof. vm_compute. reflexivity. Qed.

Lemma str_leb_refl (a : list N) : str_leb a a = true.
Proof.
  induction a as [|x a IH]; simpl; [done|]. by rewrite N.ltb_irrefl.
Qed.

Lemma str_leb_total (a b : list N) : str_leb a b = true ∨ str_leb b a = true.
Proof.
  revert b. induction a as [|x a IH]; intros [|y b]; simpl; auto.
  destruct (N.ltb_spec x y), (N.ltb_spec y x); auto; lia.
Qed.

Lemma str_leb_antisym (a b : list N) :
  str_leb a b = true → str_leb b a = true → a = b.
Proof.
  revert b. induction a as [|x a IH]; intros [|y b]; simpl; try done.
  destruct (N.ltb_spec x y), (N.ltb_spec y x); try done; try lia.
  intros Hab Hba. assert (x = y) as -> by lia. f_equal. by apply IH.
Qed.

Lemma str_leb_trans (a b c : list N) :
  str_leb a b = true → str_leb b c = true → str_leb a c = true.
Proof.
  revert b c. induction a as [|x a IH]; intros [|y b] [|z c]; simpl; try done.
  destruct (N.ltb_spec x y), (N.ltb_spec y z), (N.ltb_spec z y),
    (N.ltb_spec y x), (N.ltb_spec x z), (N.ltb_spec z x);
    try done; try lia.
  apply IH.
Qed.

Ltac nat_cases :=
  repeat match goal with
    | |- context [(?a =? ?b)%nat] => destruct (Nat.eqb_spec a b)
    | |- context [(?a <=? ?b)%nat] => destruct (Nat.leb_spec a b)
    | |- context [(?a <? ?b)%nat] => destruct (Nat.ltb_spec a b)
    end.

Lemma item_le_total (r1 r2 : list N * (nat * nat)) :
  item_le r1 r2 ∨ item_le r2 r1.
Proof.
  destruct r1 as [b1 [e1 a1]], r2 as [b2 [e2 a2]].
  unfold item_le, item_leb, Py.eqb. simpl.
  destruct (decide (b1 = b2)) as [->|Hne].
  - rewrite !bool_decide_true by done. nat_cases; auto; lia.
  - rewrite !bool_decide_false by done. apply str_leb_total.
Qed.

Lemma item_le_antisym (r1 r2 : list N * (nat * nat)) :
  item_le r1 r2 → item_le r2 r1 → r1 = r2.
Proof.
  destruct r1 as [b1 [e1 a1]], r2 as [b2 [e2 a2]].
  unfold item_le, item_leb, Py.eqb. simpl.
  destruct (decide (b1 = b2)) as [->|Hne].
  - rewrite !bool_decide_true by done.
    nat_cases; try done; try lia. intros _ _. repeat f_equal; lia.
  - rewrite !bool_decide_false by done. intros H1 H2.
    by destruct Hne; apply str_leb_antisym.
Qed.

Lemma item_le_trans (r1 r2 r3 : list N * (nat * nat)) :
  item_le r1 r2 → item_le r2 r3 → item_le r1 r3.
Proof.
  destruct r1 as [b1 [e1 a1]], r2 as [b2 [e2 a2]], r3 as [b3 [e3 a3]].
  unfold item_le, item_leb, Py.eqb. simpl.
  destruct (decide (b1 = b2)) as [->|H12];
    destruct (decide (b2 = b3)) as [->|H23];
    rewrite ?bool_decide_true by done; rewrite ?bool_decide_false by done;
    try done.
  - nat_cases; try done; lia.
  - destruct (decide (b1 = b3)) as [->|H13].
    + intros H1 H2. by destruct H12; apply str_leb_antisym.
    + rewrite bool_decide_false by done. apply str_leb_trans.
Qed.

Lemma insert_sorted_perm (r : list N * (nat * nat))
    (rows : list (list N * (nat * nat))) :
  insert_sorted r rows ≡ₚ r :: rows.
Proof.
  induction rows as [|x rows IH]; simpl; [done|].
  destruct (item_leb r x); [done|]. rewrite IH. apply Permutation_swap.
Qed.

Lemma sorted_perm (rows : list (list N * (nat * nat))) : sorted rows ≡ₚ rows.
Proof.
  induction rows as [|r rows IH]; simpl; [done|].
  by rewrite insert_sorted_perm, IH.
Qed.

Lemma insert_sorted_Sorted (r : list N * (nat * nat))
    (rows : list (list N * (nat * nat))) :
  Sorted item_le rows → Sorted item_le (insert_sorted r rows).
Proof.
  induction rows as [|x rows IH]; simpl; intros Hs.
  - by repeat constructor.
  - destruct (item_leb r x) eqn:Hrx.
    + constructor; [done|]. by constructor.
    + apply Sorted_inv in Hs as [Hs Hhd].
      constructor; [by apply IH|].
      assert (Hxr : item_le x r).
      { destruct (item_le_total r x) as [Hc|Hc]; [|done].
        unfold item_le in Hc. congruence. }
      destruct rows as [|y rows]; simpl.
      * by constructor.
      * destruct (item_leb r y); constructor; [done|].
        by apply HdRel_inv in Hhd.
Qed.

Lemma sorted_Sorted (rows : list (list N * (nat * nat))) :
  Sorted item_le (sorted rows).
Proof.
  induction rows as [|r rows IH]; simpl; [constructor|].
  by apply insert_sorted_Sorted.
Qed.

Lemma sorted_permutation_eq (rows1 rows2 : list (list N * (nat * nat))) :
  rows1 ≡ₚ rows2 → sorted rows1 = sorted rows2.
Proof.
  intros Hperm.
  assert (Htrans : Transitive item_le) by (intros ???; apply item_le_trans).
  assert (Hanti : AntiSymm (=) item_le) by (intros ??; apply item_le_antisym).
  apply (Sorted_unique item_le); try apply sorted_Sorted.
  by rewrite !sorted_perm.
Qed.

Lemma foldl_add_sum (f : list N * (nat * nat) → nat)
    (rows : list (list N * (nat * nat))) (acc : nat) :
  foldl (λ a row, (a + f row)%nat) acc rows = (acc + sum_list_with f rows)%nat.
Proof.
  revert acc. induction rows as [|r rows IH]; intros acc;
    cbn [foldl sum_list_with]; [lia|].
  rewrite IH. lia.
Qed.

Lemma str_leb_lt (a b : list N) : str_leb a b = true → a = b ∨ str_lt a b.
Proof.
  revert b. induction a as [|x a IH]; intros [|y b]; simpl; try done.
  - by left.
  - intros _. right. constructor.
  - destruct (N.ltb_spec x y) as [Hxy|Hyx].
    + intros _. right. by constructor.
    + destruct (N.ltb_spec y x) as [?|Hxy]; [done|].
      assert (x = y) as -> by lia.
      intros [->|Hlt]%IH; [by left|]. right. by constructor.
Qed.

Lemma item_le_boards (r1 r2 : list N * (nat * nat)) :
  item_le r1 r2 → r1.1 = r2.1 ∨ str_lt r1.1 r2.1.
Proof.
  unfold item_le, item_leb.
  destruct (eqb_reflect r1.1 r2.1) as [?|_]; [by left|]. apply str_leb_lt.
Qed.

Lemma Sorted_weaken {A : Type} (R R' : A → A → Prop) (l : list A) :
  (∀ x y, R x y → R' x y) → Sorted R l → Sorted R' l.
Proof.
  intros HR. induction 1 as [|x l _ IH Hhd]; constructor; [done|].
  destruct Hhd; constructor. by apply HR.
Qed.

Lemma summary_line_text (row : list N * (nat * nat)) :
  ∃ total new,
    decimal 1 (N.of_nat row.2.1) total ∧ decimal 1 (N.of_nat row.2.2) new
    ∧ summary_line row
      = u "- " ++ row.1 ++ u ": " ++ total ++ u " sager i alt (" ++ new
          ++ u " nye)".
Proof.
  exists (of_nat row.2.1), (of_nat row.2.2).
  split; [apply of_N_decimal|]. split; [apply of_N_decimal|done].
Qed.

(** The report, in full.  Its rows are those of the summary in ascending
    order of their boards (the order of Python on strings), whatever the
    order in which the boards were met; each row gives the board and its
    two counts in decimal digits; and the last line gives the sums of the
    two columns, the totals first and the additions second. *)
Theorem format_summary_order_free
    (summary1 summary2 : list (list N * (nat * nat))) :
  summary1 ≡ₚ summary2 →
  _format_summary summary1 = _format_summary summary2
  ∧ ∃ rows lines total new,
      rows ≡ₚ summary2
      ∧ Sorted (λ r1 r2, r1.1 = r2.1 ∨ str_lt r1.1 r2.1) rows
      ∧ Forall2
          (λ row line,
             ∃ t a, decimal 1 (N.of_nat row.2.1) t
                    ∧ decimal 1 (N.of_nat row.2.2) a
                    ∧ line = u "- " ++ row.1 ++ u ": " ++ t
                               ++ u " sager i alt (" ++ a ++ u " nye)")
          rows lines
      ∧ decimal 1 (N.of_nat (sum_list_with (λ row, row.2.1) summary2)) total
      ∧ decimal 1 (N.of_nat (sum_list_with (λ row, row.2.2) summary2)) new
      ∧ _format_summary summary1
        = Py.join (u "
")
            ([u "Synkronisering fuldført:"] ++ lines
             ++ [ []; u "I alt " ++ total ++ u " sager i arkivet, " ++ new
                        ++ u " nye" ]).
Proof.
  intros Hperm. unfold _format_summary.
  rewrite (sorted_permutation_eq _ _ Hperm). split; [done|].
  exists (sorted summary2), (summary_line <$> sorted summary2),
    (of_nat (total_records (sorted summary2))),
    (of_nat (total_new (sorted summary2))).
  split; [apply sorted_perm|].
  split; [eapply Sorted_weaken; [apply item_le_boards|apply sorted_Sorted]|].
  split.
  { apply Forall2_fmap_r, Forall_Forall2_diag, Forall_forall.
    intros row _. apply summary_line_text. }
  assert (Hsum : ∀ f, foldl (λ a row, (a + f row)%nat) 0%nat (sorted summary2)
                      = sum_list_with f summary2).
  { intros f. by rewrite foldl_add_sum, sorted_perm. }
  split; [unfold total_records; rewrite Hsum; apply of_N_decimal|].
  split; [unfold total_new; rewrite Hsum; apply of_N_decimal|].
  reflexivity.
Qed.

Lemma format_summary_order_free_witness :
  _format_summary [(u "Skat", (2, 1)); (u "Miljo", (1, 0))]%nat
  = _format_summary [(u "Miljo", (1, 0)); (u "Skat", (2, 1))]%nat.
Proof.
  apply (format_summary_order_free
           [(u "Skat", (2, 1)); (u "Miljo", (1, 0))]%nat
           [(u "Miljo", (1, 0)); (u "Skat", (2, 1))]%nat).
  apply Permutation_swap.
Defined.

(** ** Trigger phrase *)

Lemma startswith_spec (p s : list N) :
  Py.startswith p s = true ↔ ∃ b, s = p ++ b.
Proof.
  revert s. induction p as [|x p IH]; intros s; simpl.
  - split; [by exists s|done].
  - destruct s as [|y s]; [split; [done|by intros [b ?]]|].
    rewrite andb_true_iff, N.eqb_eq, IH. split.
    + intros [-> [b ->]]. by exists b.
    + intros [b [= -> ->]]. eauto.
Qed.

(** [needle in hay] holds exactly when [hay] is some text, [needle], some
    text. *)
Lemma contains_spec (needle hay : list N) :
  Py.contains needle hay = true ↔ ∃ a b, hay = a ++ needle ++ b.
Proof.
  induction hay as [|c hay IH].
  - simpl. rewrite orb_false_r, startswith_spec. split.
    + intros [b Hb]. by exists [], b.
    + intros (a & b & Hab). symmetry in Hab.
      apply app_eq_nil in Hab as [-> Hnb]. by exists b.
  - cbn [Py.contains]. rewrite orb_true_iff, startswith_spec, IH. split.
    + intros [[b Hb]|(a & b & ->)]; [by exists [], b | by exists (c :: a), b].
    + intros ([|x a] & b & Hab); [left; by exists b|].
      right. injection Hab as -> ->. eauto.
Qed.

Lemma prefix_before (w y a b : list N) (c : N) :
  c ∉ w → w ++ y = a ++ c :: b → ∃ y', a = w ++ y'.
Proof.
  revert a. induction w as [|w0 w IH]; intros a Hc Heq; [by exists a|].
  apply not_elem_of_cons in Hc as [Hne Hc].
  destruct a as [|a0 a]; simpl in Heq; injection Heq as -> Heq; [done|].
  destruct (IH a Hc Heq) as [y' ->]. by exists y'.
Qed.

(** A text without the character [c] that lies in [a ++ c :: b] lies in
    [a] or in [b]. *)
Lemma infix_split_at (w a b : list N) (c : N) :
  c ∉ w → (∃ x y, a ++ c :: b = x ++ w ++ y) →
  (∃ x y, a = x ++ w ++ y) ∨ (∃ x y, b = x ++ w ++ y).
Proof.
  intros Hc (x & y & Heq). revert x Heq.
  induction a as [|a0 a IH]; intros [|x0 x] Heq; simpl in Heq.
  - left. destruct (prefix_before w y [] b c Hc) as [y' Hy']; [done|].
    exists [], y'. done.
  - injection Heq as _ ->. right. eauto.
  - left. destruct (prefix_before w y (a0 :: a) b c Hc) as [y' Hy']; [done|].
    exists [], y'. done.
  - injection Heq as _ Heq.
    destruct (IH x Heq) as [(x' & y' & ->)|Hb]; [left|by right].
    by exists (a0 :: x'), y'.
Qed.

Lemma words_from_infix (cur s word : list N) :
  word ∈ Py.words_from cur s → ∃ x y, rev cur ++ s = x ++ word ++ y.
Proof.
  revert cur. induction s as [|c s IH]; intros cur; simpl.
  - destruct cur as [|a cur]; [by intros ?%elem_of_nil|].
    intros ->%list_elem_of_singleton. exists [], []. by rewrite !app_nil_r.
  - destruct (Py.isspace c).
    + assert (Hrest : word ∈ Py.words_from [] s →
                ∃ x y, rev cur ++ c :: s = x ++ word ++ y).
      { intros (x & y & Hxy)%IH. simpl in Hxy. rewrite Hxy.
        exists (rev cur ++ c :: x), y. by rewrite <- app_assoc. }
      destruct cur as [|a cur]; [done|].
      intros [->|Hin]%elem_of_cons; [|by apply Hrest].
      by exists [], (c :: s).
    + intros (x & y & Hxy)%IH. exists x, y. rewrite <- Hxy. simpl.
      by rewrite <- app_assoc.
Qed.

Lemma words_from_covers (w cur s : list N) :
  w ≠ [] → Forall (λ c, Py.isspace c = false) w →
  (∃ x y, rev cur ++ s = x ++ w ++ y) →
  ∃ word, word ∈ Py.words_from cur s ∧ ∃ x y, word = x ++ w ++ y.
Proof.
  intros Hne Hw. revert cur. induction s as [|c s IH]; intros cur Hin; simpl.
  - rewrite app_nil_r in Hin. destruct cur as [|a cur].
    + destruct Hin as (x & y & Hxy). symmetry in Hxy.
      apply app_eq_nil in Hxy as [_ [? _]%app_eq_nil]. done.
    + exists (rev (a :: cur)). split; [left|done].
  - destruct (Py.isspace c) eqn:Hc.
    + assert (Hcw : c ∉ w).
      { intros Hcw. rewrite Forall_forall in Hw. apply Hw in Hcw. congruence. }
      destruct (infix_split_at _ _ _ _ Hcw Hin) as [Hcur|Hs].
      * destruct cur as [|a cur].
        -- destruct Hcur as (x & y & Hxy). symmetry in Hxy.
           apply app_eq_nil in Hxy as [_ [? _]%app_eq_nil]. done.
        -- exists (rev (a :: cur)). split; [left|done].
      * destruct (IH [] Hs) as (word & Hword & Hinfix).
        exists word. split; [|done].
        destruct cur as [|a cur]; [done|by right].
    + apply IH. destruct Hin as (x & y & Hxy). exists x, y.
      rewrite <- Hxy. simpl. by rewrite <- app_assoc.
Qed.

Lemma join_elem_infix (sep word : list N) (ws : list (list N)) :
  word ∈ ws → ∃ x y, Py.join sep ws = x ++ word ++ y.
Proof.
  induction ws as [|p ws IH]; [by intros ?%elem_of_nil|].
  intros [->|Hin]%elem_of_cons.
  - destruct ws as [|q ws]; [exists [], []; by rewrite app_nil_r|].
    exists [], (sep ++ Py.join sep (q :: ws)). done.
  - destruct (IH Hin) as (x & y & Hxy).
    destruct ws as [|q ws]; [by apply elem_of_nil in Hin|].
    change (Py.join sep (p :: q :: ws))
      with (p ++ sep ++ Py.join sep (q :: ws)).
    rewrite Hxy. exists (p ++ sep ++ x), y.
    by rewrite <- !app_assoc.
Qed.

Lemma join_space_infix (w : list N) (ws : list (list N)) :
  w ≠ [] → 32 ∉ w →
  (∃ x y, Py.join [32] ws = x ++ w ++ y) →
  ∃ word, word ∈ ws ∧ ∃ x y, word = x ++ w ++ y.
Proof.
  intros Hne Hsp. induction ws as [|p ws IH]; intros Hin.
  - destruct Hin as (x & y & Hxy). symmetry in Hxy. simpl in Hxy.
    apply app_eq_nil in Hxy as [_ [? _]%app_eq_nil]. done.
  - destruct ws as [|q ws].
    + exists p. split; [left|done].
    + change (Py.join [32] (p :: q :: ws))
        with (p ++ 32 :: Py.join [32] (q :: ws)) in Hin.
      destruct (infix_split_at _ _ _ _ Hsp Hin) as [Hp|Hrest].
      * exists p. split; [left|done].
      * destruct (IH Hrest) as (word & Hword & Hinfix).
        exists word. split; [by right|done].
Qed.

(** Collapsing the whitespace of a text changes nothing for a word that
    holds no whitespace: it is in the collapsed text exactly when it is in
    the text. *)
Lemma contains_normalized (w s : list N) :
  w ≠ [] → Forall (λ c, Py.isspace c = false) w →
  Py.contains w (Py.join (u " ") (Py.split_ws s)) = Py.contains w s.
Proof.
  intros Hne Hw. apply eq_true_iff_eq. rewrite !contains_spec.
  change (u " ") with [32]. unfold Py.split_ws. split.
  - intros Hin. apply join_space_infix in Hin as (word & Hword & x & y & ->);
      [|done|].
    + apply words_from_infix in Hword as (x' & y' & Hxy). simpl in Hxy.
      rewrite Hxy. exists (x' ++ x), (y ++ y'). by rewrite <- !app_assoc.
    + intros Hsp. rewrite Forall_forall in Hw. by apply Hw in Hsp.
  - intros Hin. destruct (words_from_covers w [] s Hne Hw Hin)
      as (word & Hword & x & y & ->).
    destruct (join_elem_infix [32] _ _ Hword) as (x' & y' & ->).
    exists (x' ++ x), (y ++ y'). by rewrite <- !app_assoc.
Qed.

(** The trigger: whether a prompt starts a synchronisation depends only on
    its lower-cased text holding [hent], [afgørelser] and [portalerne]
    somewhere (the collapse of whitespace has no part in it).  A prompt
    that passes gets the report of the run or its exception; any other
    prompt gets the fixed message and the archive is not touched. *)
Theorem handle_prompt_trigger `{Platform} (prompt sitemap_url : list N)
    (fs : gmap (list N) (gmap (list N) entry)) :
  let lowered := Py.lower prompt in
  handle_prompt prompt sitemap_url fs =
    if Py.contains (u "hent") lowered
       && Py.contains (u "afgørelser") lowered
       && Py.contains (u "portalerne") lowered
    then
      match update_decision_knowledge sitemap_url fs with
      | (fs', Ok summary) => (fs', Ok (_format_summary summary))
      | (fs', Raise e) => (fs', Raise e)
      end
    else (fs, Ok no_sync_message).
Proof.
  intros lowered. unfold handle_prompt, prompt_matches. fold lowered.
  rewrite !contains_normalized
    by (try done; vm_compute; repeat constructor).
  destruct (_ && _); [|done].
  unfold io_bind, io_ret.
  by destruct (update_decision_knowledge sitemap_url fs) as [fs' [summary|e]].
Qed.

(** ** Stripped texts *)

Lemma lstrip_clean (s : list N) :
  match s with [] => True | c :: _ => Py.isspace c = false end →
  Py.lstrip s = s.
Proof. destruct s as [|c s]; simpl; [done|]. by intros ->. Qed.

Lemma strip_clean_edges (s : list N) : clean_edges (Py.strip s).
Proof.
  split.
  - destruct (Py.strip s) as [|c t] eqn:Hs; [done|]. by eapply strip_head.
  - unfold Py.strip, Py.rstrip.
    destruct (Py.lstrip (rev (Py.lstrip s))) as [|c t] eqn:Hl; [done|].
    simpl. rewrite last_snoc. by eapply lstrip_head.
Qed.

Lemma clean_edges_strip (s : list N) : clean_edges s → Py.strip s = s.
Proof.
  intros [Hhead Hlast]. unfold Py.strip, Py.rstrip.
  rewrite (lstrip_clean s Hhead).
  destruct (rev s) as [|c t] eqn:Hrev.
  - simpl. apply (f_equal (@rev N)) in Hrev.
    by rewrite rev_involutive in Hrev.
  - apply (f_equal (@rev N)) in Hrev. rewrite rev_involutive in Hrev.
    simpl in Hrev. subst s. rewrite last_snoc in Hlast.
    simpl. by rewrite Hlast.
Qed.

Lemma strip_idempotent (s : list N) : Py.strip (Py.strip s) = Py.strip s.
Proof. apply clean_edges_strip, strip_clean_edges. Qed.

Lemma join_last (sep : list N) (ps : list (list N)) :
  Forall (λ q, q ≠ []) ps → last (Py.join sep ps) = last ps ≫= last.
Proof.
  induction ps as [|p ps IH]; [done|]. intros [Hp Hne]%Forall_cons.
  destruct ps as [|q ps]; [done|].
  change (Py.join sep (p :: q :: ps))
    with (p ++ sep ++ Py.join sep (q :: ps)).
  rewrite !last_app, (IH Hne), last_cons_cons.
  destruct (last (q :: ps)) as [r|] eqn:Hr; [|by apply last_None in Hr].
  simpl. destruct (last r) eqn:Hl; [done|].
  apply last_None in Hl. apply last_Some_elem_of in Hr.
  rewrite Forall_forall in Hne. by apply Hne in Hr.
Qed.

Lemma join_clean_edges (sep : list N) (ps : list (list N)) :
  Forall (λ p, p ≠ [] ∧ clean_edges p) ps → clean_edges (Py.join sep ps).
Proof.
  intros Hall.
  assert (Hne : Forall (λ q, q ≠ []) ps).
  { eapply Forall_impl; [exact Hall|]. by intros q [? _]. }
  split.
  - destruct ps as [|p ps]; [done|].
    apply Forall_cons in Hall as [[Hp [Hhead _]] _].
    destruct p as [|c p]; [done|]. by destruct ps.
  - rewrite (join_last sep ps Hne).
    destruct (last ps) as [r|] eqn:Hr; [|done]. simpl.
    apply last_Some_elem_of in Hr.
    rewrite Forall_forall in Hall. by destruct (Hall _ Hr) as [_ [_ Hl]].
Qed.

(** [get_text(sep, strip=True)] neither starts nor ends with whitespace. *)
Lemma get_text_strip_clean (sep : list N) (n : node) :
  clean_edges (Soup.get_text_strip sep n).
Proof.
  unfold Soup.get_text_strip. apply join_clean_edges.
  apply Forall_forall. intros p [Hne Hin]%elem_of_filterb.
  apply eqb_nil_false in Hne. split; [done|].
  apply list_elem_of_fmap in Hin as (s & -> & _). apply strip_clean_edges.
Qed.

(** ** Page download *)

Section DownloadFacts.
Context `{Platform}.

Lemma extract_body_text_clean (soup : node) :
  clean_edges (_extract_body_text soup).
Proof.
  unfold _extract_body_text.
  repeat case_match; apply get_text_strip_clean.
Qed.

Lemma download_decision_fields (url0 guid0 board0 : list N) (d : Decision) :
  _download_decision url0 guid0 board0 = Ok d →
  guid d = guid0 ∧ board d = board0 ∧ url d = url0
  ∧ ∃ r soup, session_get url0 = Ok r
              ∧ BeautifulSoup (text r) = Ok soup
              ∧ body d = _extract_body_text soup
              ∧ title d = match _extract_title soup with
                          | Some (c :: t) => c :: t
                          | _ => u "Afgørelse " ++ guid0
                          end.
Proof.
  unfold _download_decision.
  destruct (session_get url0) as [r|]; [|done]. simpl.
  destruct (raise_for_status r); [|done]. simpl.
  destruct (BeautifulSoup (text r)) as [soup|] eqn:Hsoup; [|done]. simpl.
  intros [= <-]. simpl. repeat split. by exists r, soup.
Qed.

(** A downloaded decision carries the identifier, the board and the
    address it was asked for; its title is never empty, and its body has
    no whitespace at either end, so that [as_text] stores it as it is. *)
Theorem download_decision_shape (url0 guid0 board0 : list N) (d : Decision) :
  _download_decision url0 guid0 board0 = Ok d →
  guid d = guid0 ∧ board d = board0 ∧ url d = url0
  ∧ title d ≠ [] ∧ Py.strip (body d) = body d.
Proof.
  intros (Hg & Hb & Hu & r & soup & _ & _ & Hbody & Htitle)
    %download_decision_fields.
  repeat split; try done.
  - rewrite Htitle. by destruct (_extract_title _) as [[|c t]|].
  - rewrite Hbody. apply clean_edges_strip, extract_body_text_clean.
Qed.


Lemma first_parse_sound (value : list N) (fmts : list (list N)) (d : datetime) :
  first_parse value fmts = Some d →
  ∃ fmt, fmt ∈ fmts ∧ strptime value fmt = Some d.
Proof.
  induction fmts as [|fmt fmts IH]; simpl; [done|].
  destruct (strptime value fmt) as [d'|] eqn:Hp.
  - intros [= ->]. exists fmt. split; [left|done].
  - intros (fmt' & Hin & Hfmt')%IH. exists fmt'. split; [by right|done].
Qed.

(** A publication date comes from the first [<time>] element only, and
    is what [strptime] made either of its non-empty [datetime] attribute
    under one of the three ISO formats, or of its stripped text under one
    of the three day formats; in the latter case the element has a single
    string. *)
Theorem extract_published_sound (soup : node) (d : datetime) :
  _extract_published soup = Some d →
  ∃ time_tag value fmt,
    Soup.find (u "time") soup = Some time_tag
    ∧ strptime value fmt = Some d
    ∧ ((Soup.get time_tag (u "datetime") = Some value ∧ value ≠ []
        ∧ fmt ∈ [u "%Y-%m-%dT%H:%M:%S%z"; u "%Y-%m-%dT%H:%M:%S"; u "%Y-%m-%d"])
       ∨ (value = Soup.get_text_strip [] time_tag
          ∧ is_Some (Soup.string time_tag)
          ∧ fmt ∈ [u "%d.%m.%Y"; u "%d-%m-%Y"; u "%Y-%m-%d"])).
Proof.
  unfold _extract_published.
  destruct (Soup.find (u "time") soup) as [time_tag|]; [|done].
  set (iso := [u "%Y-%m-%dT%H:%M:%S%z"; u "%Y-%m-%dT%H:%M:%S"; u "%Y-%m-%d"]).
  set (days := [u "%d.%m.%Y"; u "%d-%m-%Y"; u "%Y-%m-%d"]).
  assert (Htext :
    (if truthy (Soup.string time_tag)
     then first_parse (Soup.get_text_strip [] time_tag) days
     else None) = Some d →
    ∃ time_tag0 value fmt,
      Some time_tag = Some time_tag0 ∧ strptime value fmt = Some d
      ∧ ((Soup.get time_tag0 (u "datetime") = Some value ∧ value ≠ []
          ∧ fmt ∈ iso)
         ∨ (value = Soup.get_text_strip [] time_tag0
            ∧ is_Some (Soup.string time_tag0) ∧ fmt ∈ days))).
  { destruct (truthy (Soup.string time_tag)) eqn:Hs; [|done].
    intros (fmt & Hin & Hfmt)%first_parse_sound.
    exists time_tag, (Soup.get_text_strip [] time_tag), fmt.
    split; [done|]. split; [done|]. right.
    split; [done|]. split; [|done]. by destruct (Soup.string time_tag). }
  destruct (Soup.get time_tag (u "datetime")) as [[|c attr]|] eqn:Hattr;
    try exact Htext.
  change (truthy (Some (c :: attr))) with true. cbv iota.
  change (default [] (Some (c :: attr))) with (c :: attr).
  destruct (first_parse (c :: attr) iso) as [d'|] eqn:Hp; [|exact Htext].
  intros [= ->]. apply first_parse_sound in Hp as (fmt & Hin & Hfmt).
  exists time_tag, (c :: attr), fmt. split; [done|]. split; [done|].
  left. done.
Qed.

End DownloadFacts.

Lemma download_decision_shape_witness :
  ∃ d, @_download_decision Demo2.portal Demo2.ok_url (u "OK-1") (u "Skat")
       = Ok d
       ∧ title d = u "Sag 1"
       ∧ Py.strip (body d) = body d.
Proof.
  exists (mk_Decision (u "OK-1") (u "Skat") Demo2.ok_url (u "Sag 1")
            (Some (mk_datetime 2023 5 1 0 0 0 None))
            (u "Første afsnit.
Andet afsnit.")).
  split; [vm_compute; reflexivity|]. split; [reflexivity|].
  eapply (@download_decision_shape Demo2.portal Demo2.ok_url (u "OK-1")
            (u "Skat")).
  vm_compute. reflexivity.
Defined.

Lemma extract_published_sound_witness :
  ∃ time_tag value fmt,
    Soup.find (u "time") Demo2.page = Some time_tag
    ∧ @strptime Demo2.portal value fmt = Some (mk_datetime 2023 5 1 0 0 0 None)
    ∧ ((Soup.get time_tag (u "datetime") = Some value ∧ value ≠ []
        ∧ fmt ∈ [u "%Y-%m-%dT%H:%M:%S%z"; u "%Y-%m-%dT%H:%M:%S"; u "%Y-%m-%d"])
       ∨ (value = Soup.get_text_strip [] time_tag
          ∧ is_Some (Soup.string time_tag)
          ∧ fmt ∈ [u "%d.%m.%Y"; u "%d-%m-%Y"; u "%Y-%m-%d"])).
Proof.
  apply (@extract_published_sound Demo2.portal Demo2.page).
  vm_compute. reflexivity.
Defined.

(** ** Namespaces of sitemap tags *)

Lemma split_nonempty (sep : N) (s : list N) : Py.split sep s ≠ [].
Proof.
  destruct s as [|c s]; simpl; [done|].
  destruct (c =? sep); [done|]. by destruct (Py.split sep s).
Qed.

Lemma split_app_sep (sep : N) (pre rest : list N) :
  Py.split sep (pre ++ sep :: rest) = Py.split sep pre ++ Py.split sep rest.
Proof.
  induction pre as [|c pre IH]; simpl.
  - by rewrite N.eqb_refl.
  - rewrite IH. destruct (c =? sep); [done|].
    pose proof (split_nonempty sep pre).
    by destruct (Py.split sep pre).
Qed.

Lemma list_last_app {A : Type} (l1 l2 : list A) (d : A) :
  l2 ≠ [] → List.last (l1 ++ l2) d = List.last l2 d.
Proof.
  intros Hne. induction l1 as [|a l1 IH]; [done|].
  simpl. rewrite IH. destruct (l1 ++ l2) eqn:Happ; [|done].
  by apply app_eq_nil in Happ as [_ ?].
Qed.

Lemma list_last_elem {A : Type} (l : list A) (d : A) :
  l ≠ [] → List.last l d ∈ l.
Proof.
  induction l as [|a l IH]; [done|]. intros _.
  destruct l as [|b l]; [left|]. right. by apply IH.
Qed.

(** The local name of a tag holds no closing brace; taking it twice is
    taking it once; and of [{namespace}name] it is [name]. *)
Theorem strip_namespace_local_name (tag : list N) :
  125 ∉ _strip_namespace tag
  ∧ _strip_namespace (_strip_namespace tag) = _strip_namespace tag
  ∧ ∀ ns name, 125 ∉ name →
      _strip_namespace (u "{" ++ ns ++ u "}" ++ name) = name.
Proof.
  assert (Hclean : ∀ t, 125 ∉ _strip_namespace t).
  { intros t. unfold _strip_namespace.
    destruct (Py.has_char 125 t) eqn:Hc; [|by apply has_char_false].
    intros Hin.
    pose proof (list_last_elem (Py.split 125 t) [] (split_nonempty _ _)) as Hl.
    by destruct (split_elem _ _ _ _ Hl Hin). }
  split; [done|]. split.
  - unfold _strip_namespace at 1.
    by rewrite (proj2 (has_char_false _ _) (Hclean tag)).
  - intros ns name Hname. unfold _strip_namespace.
    change (u "}" ++ name) with (125 :: name). rewrite app_assoc.
    rewrite (proj2 (has_char_elem _ _)) by (apply elem_of_app; right; left).
    rewrite split_app_sep, list_last_app by apply split_nonempty.
    by rewrite (split_no_sep _ _ Hname).
Qed.

(** ** More on the sitemap walk *)

Section WalkerMore.
Context `{Platform}.

Lemma concat_results_Forall (P : list N → Prop)
    (rs : list (result (list (list N)))) (links : list (list N)) :
  Forall (λ r, ∀ l, r = Ok l → Forall P l) rs →
  concat_results rs = Ok links → Forall P links.
Proof.
  revert links. induction rs as [|r rs IH]; intros links Hall; simpl.
  - by intros [= <-].
  - apply Forall_cons in Hall as [Hr Hall].
    destruct r as [l|]; [|done]. simpl.
    destruct (concat_results rs) as [ls|]; [|done]. simpl.
    intros [= <-]. apply Forall_app. split; [by apply Hr|by apply IH].
Qed.

Lemma looks_like_nonempty (link : list N) :
  _looks_like_decision link = true → link ≠ [].
Proof. by intros Hl ->. Qed.

(** Whatever the shape of the sitemap tree, every address the walk
    yields looks like a decision, is not empty and has no whitespace at
    either end. *)
Theorem sitemap_walk_yields_decisions (depth : nat) (url0 : list N)
    (links : list (list N)) :
  _iterate_sitemap_urls depth url0 = Ok links →
  Forall (λ link, _looks_like_decision link = true ∧ link ≠ []
                  ∧ Py.strip link = link) links.
Proof.
  revert url0 links. induction depth as [|depth IH]; intros url0 links;
    [done|].
  cbn [_iterate_sitemap_urls].
  destruct (session_get url0) as [r|]; [|done]. cbn [rbind].
  destruct (400 <=? status_code r); [done|].
  destruct (ET_fromstring (content r)) as [root|]; [|done]. cbn [rbind].
  cbv zeta.
  destruct (Py.eqb (_strip_namespace (tag_of root)) (u "sitemapindex")).
  - apply concat_results_Forall. apply Forall_forall.
    intros res (child & -> & _)%list_elem_of_fmap l Hl. by eapply IH.
  - destruct (negb _); [done|]. intros [= <-].
    apply Forall_forall. intros link Hlink.
    apply urlset_links_elem in Hlink as [(e & t & _ & _ & _ & ->) Hlooks].
    split; [done|]. split; [by apply looks_like_nonempty|].
    apply strip_idempotent.
Qed.


End WalkerMore.

Lemma sitemap_walk_yields_decisions_witness :
  Forall (λ link, _looks_like_decision link = true ∧ link ≠ []
                  ∧ Py.strip link = link)
    [Demo.a1_url; Demo.contact_url; Demo.n2_url; Demo.b404_url].
Proof.
  apply (@sitemap_walk_yields_decisions Demo.portal 2 Demo.sitemap_url).
  vm_compute. reflexivity.
Defined.


(** ** Grouping by board *)

Lemma dict_get_setdefault_append (key value b : list N)
    (d : list (list N * list (list N))) :
  dict_get b (setdefault_append key value d)
  = if decide (b = key)
    then Some (default [] (dict_get key d) ++ [value])
    else dict_get b d.
Proof.
  induction d as [|[k vs] d IH]; cbn [setdefault_append dict_get].
  - destruct (eqb_reflect key b), (decide (b = key)); simpl; congruence.
  - destruct (eqb_reflect k key) as [->|Hk]; cbn [dict_get].
    + destruct (eqb_reflect key b), (decide (b = key)); simpl; congruence.
    + rewrite IH.
      destruct (eqb_reflect k b), (decide (b = key)); simpl; congruence.
Qed.

Lemma setdefault_append_keys (key value : list N)
    (d : list (list N * list (list N))) :
  (setdefault_append key value d).*1 = add_key key d.*1.
Proof.
  induction d as [|[k vs] d IH]; [done|].
  cbn [setdefault_append]. rewrite fmap_cons. cbn [add_key fst].
  destruct (Py.eqb k key); rewrite fmap_cons; [done|]. by rewrite IH.
Qed.

Lemma add_key_NoDup (key : list N) (keys : list (list N)) :
  NoDup keys →
  NoDup (add_key key keys) ∧ ∀ k, k ∈ add_key key keys ↔ k = key ∨ k ∈ keys.
Proof.
  induction 1 as [|k keys Hk Hnd [IHnd IHin]]; cbn [add_key].
  - split; [by apply NoDup_singleton|]. intros k.
    rewrite list_elem_of_singleton. split; [by left|].
    by intros [?|?%elem_of_nil].
  - destruct (eqb_reflect k key) as [->|Hne].
    + split; [by constructor|]. intros k'. rewrite elem_of_cons. tauto.
    + split.
      * constructor; [|done]. rewrite IHin. by intros [?|?].
      * intros k'. rewrite !elem_of_cons, IHin. tauto.
Qed.

Lemma dict_get_elem {V : Type} (key : list N) (v : V) (d : list (list N * V)) :
  NoDup d.*1 → ((key, v) ∈ d ↔ dict_get key d = Some v).
Proof.
  induction d as [|[k v'] d IH]; cbn [dict_get].
  - intros _. split; [by intros ?%elem_of_nil|done].
  - rewrite fmap_cons. intros [Hk Hnd]%NoDup_cons. simpl in Hk.
    destruct (eqb_reflect k key) as [->|Hne].
    + rewrite elem_of_cons. split.
      * intros [[= ->]|Hin]; [done|]. destruct Hk.
        apply list_elem_of_fmap. by exists (key, v).
      * intros [= ->]. by left.
    + rewrite elem_of_cons, <- (IH Hnd). split.
      * intros [[= -> _]|?]; done.
      * by right.
Qed.

Section GroupingFacts.
Context `{Platform}.

Lemma group_urls_invariant (rest : list (list N)) :
  ∀ seen grouped result,
    grouped_for seen grouped →
    group_urls rest grouped = Ok result →
    grouped_for (seen ++ rest) result.
Proof.
  induction rest as [|u0 rest IH]; intros seen grouped result Hinv; simpl.
  - intros [= <-]. by rewrite app_nil_r.
  - assert (Hskip : board_of u0 = None →
              grouped_for (seen ++ [u0]) grouped).
    { intros Hnone. destruct Hinv as [Hnd Hget]. split; [done|].
      intros b. rewrite filter_app, Hget.
      rewrite (filter_cons_False (λ u1, board_of u1 = Some b)),
        filter_nil, app_nil_r by congruence.
      done. }
    replace (seen ++ u0 :: rest) with ((seen ++ [u0]) ++ rest)
      by (by rewrite <- app_assoc).
    unfold board_of in Hskip.
    destruct (_extract_guid u0) as [[[|c g]|]|] eqn:Hguid; simpl;
      try done; try (apply IH; by apply Hskip).
    destruct (_derive_board_name u0) as [b0|] eqn:Hboard; simpl; [|done].
    apply IH. destruct Hinv as [Hnd Hget]. split.
    + rewrite setdefault_append_keys. by apply add_key_NoDup.
    + intros b. rewrite dict_get_setdefault_append, filter_app.
      assert (Hb0 : board_of u0 = Some b0).
      { unfold board_of. by rewrite Hguid, Hboard. }
      destruct (decide (b = b0)) as [->|Hne].
      * rewrite (filter_cons_True (λ u1, board_of u1 = Some b0)) by done.
        rewrite filter_nil, Hget.
        destruct (filter _ seen) as [|x xs]; done.
      * rewrite (filter_cons_False (λ u1, board_of u1 = Some b)),
          filter_nil, app_nil_r by congruence.
        apply Hget.
Qed.

(** The grouping files every discovered address that has an identifier
    under its board and drops the others: the boards of [grouped] are
    distinct, no group is empty, and a group is exactly the addresses of
    its board in the order of discovery. *)
Theorem group_urls_by_board (decision_urls : list (list N))
    (grouped : list (list N * list (list N))) :
  group_urls decision_urls [] = Ok grouped →
  NoDup grouped.*1
  ∧ (∀ b us, (b, us) ∈ grouped →
       us ≠ [] ∧ us = filter (λ u0, board_of u0 = Some b) decision_urls)
  ∧ (∀ u0 b, u0 ∈ decision_urls → board_of u0 = Some b → b ∈ grouped.*1).
Proof.
  intros Hrun.
  destruct (group_urls_invariant decision_urls [] [] grouped) as [Hnd Hget];
    [by split; [constructor|]|done|].
  simpl in Hget. split; [done|]. split.
  - intros b us Hin. apply (dict_get_elem _ _ _ Hnd) in Hin.
    rewrite Hget in Hin.
    destruct (filter _ decision_urls) as [|x xs]; [done|].
    by injection Hin as <-.
  - intros u0 b Hu Hb.
    assert (Hf : u0 ∈ filter (λ u1, board_of u1 = Some b) decision_urls)
      by (by apply list_elem_of_filter).
    specialize (Hget b).
    destruct (filter _ decision_urls) as [|x xs] eqn:Hfl;
      [by apply elem_of_nil in Hf|].
    apply (dict_get_elem _ _ _ Hnd) in Hget.
    apply list_elem_of_fmap. by exists (b, x :: xs).
Qed.



End GroupingFacts.

Lemma group_urls_by_board_witness :
  NoDup [u "Skat"; u "Kontakt"; u "Miljo"]
  ∧ [Demo.a1_url; Demo.b404_url]
    = filter (λ u0, @board_of Demo.portal u0 = Some (u "Skat"))
        [Demo.a1_url; Demo.contact_url; Demo.n2_url; Demo.b404_url].
Proof.
  destruct (@group_urls_by_board Demo.portal
              [Demo.a1_url; Demo.contact_url; Demo.n2_url; Demo.b404_url]
              [(u "Skat", [Demo.a1_url; Demo.b404_url]);
               (u "Kontakt", [Demo.contact_url]);
               (u "Miljo", [Demo.n2_url])]) as (Hnd & Hgroups & _).
  - vm_compute. reflexivity.
  - split; [exact Hnd|].
    apply (Hgroups (u "Skat") [Demo.a1_url; Demo.b404_url]). left.
Defined.


(** ** What a run leaves for a board *)

Lemma board_dir_inj (b1 b2 : list N) : board_dir b1 = board_dir b2 → b1 = b2.
Proof. unfold board_dir. by intros ?%app_inv_tail. Qed.

Lemma board_dir_not_root (b : list N) : board_dir b ≠ Path.root.
Proof. unfold board_dir, Path.root. by destruct b. Qed.

Lemma dict_set_fresh {V : Type} (key : list N) (value : V)
    (d : list (list N * V)) :
  key ∉ d.*1 → dict_set key value d = d ++ [(key, value)].
Proof.
  induction d as [|[k v] d IH]; [done|].
  rewrite fmap_cons. intros [Hne Hd]%not_elem_of_cons. simpl in Hne.
  cbn [dict_set]. destruct (eqb_reflect k key); [congruence|].
  by rewrite (IH Hd).
Qed.

Lemma Forall2_impl_elem {A B : Type} (P Q : A → B → Prop)
    (l : list A) (k : list B) :
  Forall2 P l k → (∀ x y, x ∈ l → P x y → Q x y) → Forall2 Q l k.
Proof.
  induction 1 as [|x y l k Hxy _ IH]; intros HPQ; constructor.
  - apply HPQ; [left|done].
  - apply IH. intros x' y' Hin. apply HPQ. by right.
Qed.

Section OutcomeFacts.
Context `{Platform}.

(** One board, when the loop returns: the known-set stays the set of
    stems, it grows by exactly the count of additions, no other directory
    is touched, every identifier that is new to it is that of a page that
    was downloaded, and every entry that is new to the archive is the text
    of such a page. *)
Lemma download_new_outcome (board : list N) (urls : list (list N)) :
  ∀ existing added fs fs' existing' added',
    tracked (board_dir board) existing fs →
    download_new board (board_dir board) urls existing added fs
      = (fs', Ok (existing', added')) →
    tracked (board_dir board) existing' fs'
    ∧ (size existing' + added = size existing + added')%nat
    ∧ (∀ d, d ≠ board_dir board → fs' !! d = fs !! d)
    ∧ (∀ guid0, guid0 ∈ existing' →
         guid0 ∈ existing
         ∨ ∃ url0 decision,
             url0 ∈ urls ∧ _extract_guid url0 = Ok (Some guid0)
             ∧ _download_decision url0 guid0 board = Ok decision)
    ∧ (∀ dir name e, entry_of fs' dir name e →
         entry_of fs dir name e ∨ written_for board urls dir name e).
Proof.
  induction urls as [|url0 rest IH];
    intros existing added fs fs' existing' added' Htr; cbn [download_new].
  - unfold io_ret. intros [= <- <- <-]. repeat split; auto.
  - unfold io_bind, io_lift.
    assert (Hnext : ∀ added1,
      download_new board (board_dir board) rest existing added1 fs
        = (fs', Ok (existing', added')) →
      tracked (board_dir board) existing' fs'
      ∧ (size existing' + added1 = size existing + added')%nat
      ∧ (∀ d, d ≠ board_dir board → fs' !! d = fs !! d)
      ∧ (∀ guid0, guid0 ∈ existing' →
           guid0 ∈ existing
           ∨ ∃ url1 decision,
               url1 ∈ url0 :: rest ∧ _extract_guid url1 = Ok (Some guid0)
               ∧ _download_decision url1 guid0 board = Ok decision)
      ∧ (∀ dir name e, entry_of fs' dir name e →
           entry_of fs dir name e
           ∨ written_for board (url0 :: rest) dir name e)).
    { intros added1 Hrest.
      destruct (IH _ _ _ _ _ _ Htr Hrest)
        as (Htr' & Hsize & Hframe & Hknown & Hprov).
      split; [done|]. split; [done|]. split; [done|]. split.
      - intros guid0 Hin.
        destruct (Hknown guid0 Hin) as [?|(u1 & d1 & Hu1 & ?)]; [by left|].
        right. exists u1, d1. split; [by right|done].
      - intros dir name e Hentry.
        destruct (Hprov dir name e Hentry)
          as [?|(u1 & g1 & d1 & Hu1 & ?)]; [by left|].
        right. exists u1, g1, d1. split; [by right|done]. }
    destruct (_extract_guid url0) as [[[|c g]|]|] eqn:Hguid;
      try done; try (by apply Hnext).
    case_bool_decide as Hnew; [by apply Hnext|].
    destruct (_download_decision url0 (c :: g) board) as [decision|] eqn:Hdl;
      [|by apply Hnext].
    destruct (Path.write_text (board_dir board) ((c :: g) ++ u ".txt")
                (as_text decision) fs) as [fs1 [[]|]] eqn:Hw; [|done].
    pose proof (write_text_spec _ (c :: g) _ _ _ _ _
                  ltac:(done) Hnew Htr Hw)
      as (_ & Hframe1 & Htr1 & l & Hl & Hfree & ->).
    intros Hrest.
    destruct (IH _ _ _ _ _ _ Htr1 Hrest)
      as (Htr' & Hsize & Hframe & Hknown & Hprov).
    split; [done|]. split; [|split; [|split]].
    + rewrite size_union, size_singleton in Hsize; [lia|].
      by apply disjoint_singleton_l.
    + intros d Hne. by rewrite (Hframe d Hne), (Hframe1 d Hne).
    + intros guid0 Hin.
      destruct (Hknown guid0 Hin) as [Hold|(u1 & d1 & Hu1 & ?)].
      * apply elem_of_union in Hold as [->%elem_of_singleton|?]; [|by left].
        right. exists url0, decision. split; [left|done].
      * right. exists u1, d1. split; [by right|done].
    + intros dir name e Hentry.
      destruct (Hprov dir name e Hentry)
        as [(l1 & Hl1 & Hname)|(u1 & g1 & d1 & Hu1 & ?)].
      * destruct (decide (dir = board_dir board)) as [->|Hdir].
        -- rewrite lookup_insert_eq in Hl1. injection Hl1 as <-.
           destruct (decide (name = (c :: g) ++ u ".txt")) as [->|Hne].
           ++ rewrite lookup_insert_eq in Hname. injection Hname as <-.
              right. exists url0, (c :: g), decision.
              split; [left|done].
           ++ rewrite lookup_insert_ne in Hname by done. left. by exists l.
        -- rewrite lookup_insert_ne in Hl1 by done. left. by exists l1.
      * right. exists u1, g1, d1. split; [by right|done].
Qed.


(** The boards of a run, when it returns a summary. *)
Lemma sync_boards_outcome (grouped : list (list N * list (list N))) :
  ∀ summary fs fs' summary',
    NoDup grouped.*1 →
    (∀ b, b ∈ grouped.*1 → b ∉ summary.*1) →
    sync_boards grouped summary fs = (fs', Ok summary') →
    ∃ rows, summary' = summary ++ rows
            ∧ Forall2 (board_outcome fs fs') grouped rows
            ∧ (∀ d, d ∉ board_dir <$> grouped.*1 → fs' !! d = fs !! d)
            ∧ (∀ dir name e, entry_of fs' dir name e →
                 entry_of fs dir name e
                 ∨ ∃ board urls, (board, urls) ∈ grouped
                                 ∧ written_for board urls dir name e).
Proof.
  induction grouped as [|[board urls] rest IH];
    intros summary fs fs' summary' Hnd Hfresh.
  - simpl. unfold io_ret. intros [= <- <-]. exists [].
    rewrite app_nil_r. split; [done|]. split; [constructor|].
    split; [done|]. intros dir name e Hentry. by left.
  - rewrite fmap_cons in Hnd, Hfresh. simpl in Hnd, Hfresh.
    apply NoDup_cons in Hnd as [Hboard Hnd].
    rewrite sync_boards_cons.
    destruct (Path.mkdir (board_dir board) fs) as [fs1 [[]|]] eqn:Hmk;
      [|done].
    pose proof (mkdir_spec _ _ _ _ Hmk) as (_ & Hl & Hframe1 & _).
    destruct (download_new board (board_dir board) urls _ 0 fs1)
      as [fs2 [[existing added]|]] eqn:Hdl; [|done].
    assert (Htr0 : tracked (board_dir board)
                     (Path.stems (default ∅ (fs !! board_dir board))) fs1)
      by (by eexists).
    destruct (download_new_outcome _ _ _ _ _ _ _ _ Htr0 Hdl)
      as ((l2 & Hl2 & Hstems2) & Hsize & Hframe2 & Hknown & Hprov).
    destruct (download_new_spec _ _ _ _ _ _ _ _ Htr0 Hdl)
      as (_ & _ & Hsettled).
    rewrite dict_set_fresh by (apply Hfresh; left).
    intros Hrest.
    assert (Hfresh' : ∀ b, b ∈ rest.*1 →
              b ∉ (summary ++ [(board, (size existing, added))]).*1).
    { intros b Hb. rewrite fmap_app. intros [Hin|Hin]%elem_of_app.
      - by apply (Hfresh b); [right|].
      - simpl in Hin. apply list_elem_of_singleton in Hin. by subst b. }
    destruct (IH _ _ _ _ Hnd Hfresh' Hrest)
      as (rows & -> & Hrows & Hframe3 & Hprov3).
    assert (Hrest_dir : board_dir board ∉ board_dir <$> rest.*1).
    { intros (b & Hb%board_dir_inj & Hin)%list_elem_of_fmap. by subst b. }
    exists ((board, (size existing, added)) :: rows).
    split; [by rewrite <- app_assoc|]. split; [|split].
    + constructor.
      * split; [done|]. exists l2. cbn [fst snd].
        rewrite (Hframe3 _ Hrest_dir).
        split; [done|]. split; [by rewrite Hstems2|]. split; [lia|].
        split.
        -- intros url0 guid0 decision Hin Hguid Hdec.
           rewrite Forall_forall in Hsettled.
           specialize (Hsettled url0 Hin). unfold settled in Hsettled.
           rewrite Hguid in Hsettled.
           pose proof (extract_guid_nonempty _ _ Hguid).
           destruct guid0 as [|c g]; [done|].
           destruct Hsettled as [(l3 & Hl3 & Hin3)|[e He]]; [|congruence].
           congruence.
        -- intros guid0 Hin. rewrite Hstems2 in Hin.
           by apply Hknown.
      * eapply Forall2_impl_elem; [exact Hrows|].
        intros [b us] row Hbin
          (Hb & l' & Hl' & Htotal & Hadded & Hgood & Hfrom).
        assert (Hne : board_dir b ≠ board_dir board).
        { intros Heq%board_dir_inj. apply Hboard. subst b.
          apply list_elem_of_fmap. by exists (board, us). }
        split; [done|]. exists l'. cbn [fst snd] in *.
        rewrite <- (Hframe1 _ Hne), <- (Hframe2 _ Hne). done.
    + intros d Hd. rewrite fmap_cons in Hd.
      apply not_elem_of_cons in Hd as [Hne Hd].
      by rewrite (Hframe3 _ Hd), (Hframe2 _ Hne), (Hframe1 _ Hne).
    + intros dir name e Hentry.
      assert (Hold : ∀ d n e0, entry_of fs1 d n e0 → entry_of fs d n e0).
      { intros d n e0 (l1 & Hl1 & Hn).
        destruct (decide (d = board_dir board)) as [->|Hne].
        - rewrite Hl in Hl1. injection Hl1 as <-.
          destruct (fs !! board_dir board) as [l0|] eqn:Hl0; [|done].
          by exists l0.
        - rewrite (Hframe1 _ Hne) in Hl1. by exists l1. }
      destruct (Hprov3 dir name e Hentry) as [Hfs2|(b1 & us1 & Hin & Hw)].
      * destruct (Hprov dir name e Hfs2) as [?|Hw]; [left; by apply Hold|].
        right. exists board, urls. split; [left|done].
      * right. exists b1, us1. split; [by right|done].
Qed.


(** Every address of a group has an identifier. *)
Lemma grouped_have_guids (decision_urls : list (list N))
    (grouped : list (list N * list (list N))) :
  group_urls decision_urls [] = Ok grouped →
  NoDup grouped.*1
  ∧ Forall (λ group, Forall (λ url0, ∃ guid0, _extract_guid url0 = Ok guid0)
                       group.2) grouped
  ∧ ∀ board urls, (board, urls) ∈ grouped →
      ∀ url0, url0 ∈ urls →
        url0 ∈ decision_urls ∧ _derive_board_name url0 = Ok board.
Proof.
  intros Hgroup.
  destruct (group_urls_invariant decision_urls [] [] grouped) as [Hnd Hget];
    [by split; [constructor|]|done|].
  simpl in Hget. split; [done|].
  assert (Hmem : ∀ board urls, (board, urls) ∈ grouped →
            ∀ url0, url0 ∈ urls →
              url0 ∈ decision_urls ∧ board_of url0 = Some board).
  { intros board urls Hin url0 Hurl.
    apply (dict_get_elem _ _ _ Hnd) in Hin. rewrite Hget in Hin.
    destruct (filter _ decision_urls) as [|x xs] eqn:Hfl; [done|].
    injection Hin as <-. rewrite <- Hfl in Hurl.
    apply list_elem_of_filter in Hurl as [? ?]. done. }
  split.
  - apply Forall_forall. intros [board urls] Hin. apply Forall_forall.
    intros url0 Hurl. destruct (Hmem _ _ Hin _ Hurl) as [_ Hboard].
    unfold board_of in Hboard.
    destruct (_extract_guid url0) as [guid0|]; [by exists guid0|done].
  - intros board urls Hin url0 Hurl.
    destruct (Hmem _ _ Hin _ Hurl) as [Hdisc Hboard]. split; [done|].
    unfold board_of in Hboard.
    destruct (_extract_guid url0) as [[[|c g]|]|]; try done.
    by destruct (_derive_board_name url0) as [b|]; [injection Hboard as ->|].
Qed.

(** The run, when it returns a summary: one row for each board, in the
    order of the groups, each with the outcome of its board; the root has
    been made; and nothing else has changed but the directories of the
    boards. *)
Lemma run_outcome (sitemap_url : list N)
    (decision_urls : list (list N))
    (grouped : list (list N * list (list N)))
    (fs fs' : gmap (list N) (gmap (list N) entry))
    (summary : list (list N * (nat * nat))) :
  _iterate_sitemap_urls recursion_limit sitemap_url = Ok decision_urls →
  group_urls decision_urls [] = Ok grouped →
  update_decision_knowledge sitemap_url fs = (fs', Ok summary) →
  NoDup grouped.*1
  ∧ Forall2 (board_outcome fs fs') grouped summary
  ∧ (∀ d, d ≠ Path.root → d ∉ board_dir <$> grouped.*1 →
       fs' !! d = fs !! d)
  ∧ (∀ dir name e, entry_of fs' dir name e →
       entry_of fs dir name e
       ∨ ∃ board urls, (board, urls) ∈ grouped
                       ∧ written_for board urls dir name e).
Proof.
  intros Hwalk Hgroup.
  destruct (run_steps sitemap_url fs) as (fs0 & Hmk & _ & Hframe0 & ->).
  rewrite Hwalk, Hgroup. intros Hsync.
  destruct (grouped_have_guids _ _ Hgroup) as (Hnd & _).
  destruct (sync_boards_outcome grouped [] fs0 fs' summary Hnd)
    as (rows & -> & Hrows & Hframe & Hprov);
    [by intros ? _ ?%elem_of_nil|done|].
  split; [done|]. split; [|split].
  - eapply Forall2_impl; [exact Hrows|].
    intros [b us] row (Hb & l' & Hrest). split; [done|]. exists l'.
    cbn [fst snd] in *. by rewrite <- (Hframe0 _ (board_dir_not_root b)).
  - intros d Hroot Hd. by rewrite (Hframe d Hd), (Hframe0 d Hroot).
  - intros dir name e Hentry.
    destruct (Hprov dir name e Hentry) as [(l0 & Hl0 & Hname)|?]; [|by right].
    left. destruct (decide (dir = Path.root)) as [->|Hne].
    + pose proof (mkdir_spec _ _ _ _ Hmk) as (_ & Hl & _).
      rewrite Hl in Hl0. injection Hl0 as <-.
      destruct (fs !! Path.root) as [l1|] eqn:Hl1; [|done]. by exists l1.
    + rewrite (Hframe0 _ Hne) in Hl0. by exists l0.
Qed.



(** ** Where the files of a run come from *)

(** Every entry of the archive after a run that completed was there
    before it, or is the text of a decision: of an address the sitemap
    walk yielded, downloaded without failure, and stored as
    [<identifier>.txt] in the directory of the board derived from that
    address. *)
Theorem run_writes_only_decisions (sitemap_url dir name : list N)
    (fs fs' : gmap (list N) (gmap (list N) entry))
    (summary : list (list N * (nat * nat)))
    (l' : gmap (list N) entry) (e : entry) :
  update_decision_knowledge sitemap_url fs = (fs', Ok summary) →
  fs' !! dir = Some l' → l' !! name = Some e →
  (∃ l, fs !! dir = Some l ∧ l !! name = Some e)
  ∨ (∃ decision_urls url0 board0 guid0 decision,
       _iterate_sitemap_urls recursion_limit sitemap_url = Ok decision_urls
       ∧ url0 ∈ decision_urls
       ∧ _derive_board_name url0 = Ok board0
       ∧ _extract_guid url0 = Ok (Some guid0)
       ∧ _download_decision url0 guid0 board0 = Ok decision
       ∧ dir = board_dir board0 ∧ name = guid0 ++ u ".txt"
       ∧ e = File (as_text decision)).
Proof.
  intros Hrun Hdir Hname.
  destruct (_iterate_sitemap_urls recursion_limit sitemap_url)
    as [decision_urls|] eqn:Hwalk.
  2: { destruct (run_raises_early sitemap_url _ fs (or_introl Hwalk))
         as (? & Hraise & _). congruence. }
  destruct (group_urls decision_urls []) as [grouped|] eqn:Hgroup.
  2: { destruct (run_raises_early sitemap_url e0 fs) as (? & Hraise & _);
         [right; by exists decision_urls|congruence]. }
  destruct (run_outcome _ _ _ _ _ _ Hwalk Hgroup Hrun) as (_ & _ & _ & Hprov).
  destruct (Hprov dir name e ltac:(by exists l'))
    as [Hold|(board0 & urls & Hin & url0 & guid0 & decision & Hurl & Hrest)];
    [by left|].
  right. exists decision_urls, url0, board0, guid0, decision.
  destruct (grouped_have_guids _ _ Hgroup) as (_ & _ & Hmem).
  destruct (Hmem _ _ Hin _ Hurl) as [Hdisc Hboard]. done.
Qed.

(** ** The summary against the archive *)




(** ** Failures of single pages *)


End OutcomeFacts.

Lemma run_writes_only_decisions_witness :
  let fs' := (@update_decision_knowledge Demo.portal Demo.sitemap_url ∅).1 in
  let e := File (as_text (mk_Decision (u "N-2") (u "Miljo") Demo.n2_url
                            (u "Titel") None (u "tekst"))) in
  (∃ l, (∅ : gmap (list N) (gmap (list N) entry)) !! u "Miljo afgørelser"
        = Some l ∧ l !! u "N-2.txt" = Some e)
  ∨ (∃ decision_urls url0 board0 guid0 decision,
       @_iterate_sitemap_urls Demo.portal 1000 Demo.sitemap_url
       = Ok decision_urls
       ∧ url0 ∈ decision_urls
       ∧ @_derive_board_name Demo.portal url0 = Ok board0
       ∧ @_extract_guid Demo.portal url0 = Ok (Some guid0)
       ∧ @_download_decision Demo.portal url0 guid0 board0 = Ok decision
       ∧ u "Miljo afgørelser" = board_dir board0
       ∧ u "N-2.txt" = guid0 ++ u ".txt"
       ∧ e = File (as_text decision)).
Proof.
  intros fs' e.
  apply (@run_writes_only_decisions Demo.portal Demo.sitemap_url
           (u "Miljo afgørelser") (u "N-2.txt") ∅ fs'
           [(u "Skat", (1, 1)); (u "Kontakt", (1, 1)); (u "Miljo", (1, 1))]%nat
           (default ∅ (fs' !! u "Miljo afgørelser")) e).
  - subst fs'.
    rewrite (surjective_pairing
               (@update_decision_knowledge Demo.portal Demo.sitemap_url ∅))
      at 1.
    f_equal; vm_compute; reflexivity.
  - vm_compute. reflexivity.
  - vm_compute. reflexivity.
Defined.



Example demo3_failures :
  @_download_decision Demo3.portal Demo3.gone_url (u "S-0") (u "Skat")
  = Raise (LibraryError (u "ConnectionError"))
  ∧ @_download_decision Demo3.portal Demo3.missing_url (u "S-1") (u "Skat")
    = Raise (LibraryError (u "HTTPError"))
  ∧ @_download_decision Demo3.portal Demo3.garbled_url (u "S-2") (u "Skat")
    = Raise (LibraryError (u "ParserRejectedMarkup")).
Proof. repeat split; vm_compute; reflexivity. Qed.



(** ** The form of a board name *)

Lemma isspace_spec (c : N) :
  Py.isspace c = true ↔
  ((9 <= c ∧ c <= 13) ∨ (28 <= c ∧ c <= 32) ∨ c = 133 ∨ c = 160 ∨ c = 5760
   ∨ (8192 <= c ∧ c <= 8202) ∨ c = 8232 ∨ c = 8233 ∨ c = 8239 ∨ c = 8287
   ∨ c = 12288)%N.
Proof.
  unfold Py.isspace.
  rewrite !orb_true_iff, !andb_true_iff, !N.leb_le, !N.eqb_eq. tauto.
Qed.

Lemma is_dash_spec (c : N) : Py.is_dash c = true ↔ (c = 45 ∨ c = 95)%N.
Proof. unfold Py.is_dash. by rewrite orb_true_iff, !N.eqb_eq. Qed.

Lemma plain_spec (c : N) :
  plain c ↔
  ¬ ((9 <= c ∧ c <= 13) ∨ (28 <= c ∧ c <= 32) ∨ c = 133 ∨ c = 160 ∨ c = 5760
     ∨ (8192 <= c ∧ c <= 8202) ∨ c = 8232 ∨ c = 8233 ∨ c = 8239 ∨ c = 8287
     ∨ c = 12288 ∨ c = 45 ∨ c = 95)%N.
Proof.
  unfold plain. rewrite <- !not_true_iff_false, isspace_spec, is_dash_spec.
  tauto.
Qed.

Ltac range_props :=
  repeat match goal with
  | H : _ && _ = true |- _ => apply andb_true_iff in H as [? ?]
  | H : negb _ = true |- _ => apply negb_true_iff in H
  | H : (_ <=? _)%N = true |- _ => apply N.leb_le in H
  | H : (_ =? _)%N = true |- _ => apply N.eqb_eq in H
  | H : (_ =? _)%N = false |- _ => apply N.eqb_neq in H
  end.

Lemma title_cp_plain (c : N) : plain c → Forall plain (Py.title_cp c).
Proof.
  rewrite plain_spec. intros Hc. unfold Py.title_cp.
  repeat case_match; range_props;
    repeat (constructor; try (apply plain_spec; lia)).
Qed.

Lemma lower_cp_plain (c : N) : plain c → plain (Py.lower_cp c).
Proof.
  rewrite !plain_spec. intros Hc. unfold Py.lower_cp.
  repeat case_match; range_props; lia.
Qed.

Lemma capitalize_plain (w : list N) :
  Forall plain w → Forall plain (Py.capitalize w).
Proof.
  destruct w as [|c w]; [done|]. intros [Hc Hw]%Forall_cons. simpl.
  apply Forall_app. split; [by apply title_cp_plain|].
  unfold Py.lower. induction Hw; simpl; constructor; [|done].
  by apply lower_cp_plain.
Qed.

Lemma sub_dashes_from_no_dash (in_run : bool) (s : list N) :
  Forall (λ c, Py.is_dash c = false) (Py.sub_dashes_from in_run s).
Proof.
  revert in_run. induction s as [|c s IH]; intros in_run; simpl; [done|].
  destruct (Py.is_dash c) eqn:Hc.
  - destruct in_run; [done|]. by constructor.
  - by constructor.
Qed.

Lemma replace_from_Forall (P : N → Prop) (old new : list N) (s : list N) :
  Forall P new → Forall P s →
  ∀ skip, Forall P (Py.replace_from old new skip s).
Proof.
  intros Hnew Hs. induction Hs as [|c s Hc Hs IH]; intros skip; simpl;
    [done|].
  destruct skip; [|done].
  destruct (Py.startswith old (c :: s)).
  - apply Forall_app. by split.
  - by constructor.
Qed.

Lemma lstrip_Forall (P : N → Prop) (s : list N) :
  Forall P s → Forall P (Py.lstrip s).
Proof.
  induction 1 as [|c s Hc Hs IH]; simpl; [done|].
  destruct (Py.isspace c); [done|]. by constructor.
Qed.

Lemma Forall_rev' (P : N → Prop) (s : list N) : Forall P s → Forall P (rev s).
Proof.
  rewrite !Forall_forall. intros Hs c Hc. apply Hs.
  apply list_elem_of_In. apply in_rev. by apply list_elem_of_In.
Qed.

Lemma strip_Forall (P : N → Prop) (s : list N) :
  Forall P s → Forall P (Py.strip s).
Proof.
  intros Hs. unfold Py.strip, Py.rstrip.
  by apply Forall_rev', lstrip_Forall, Forall_rev', lstrip_Forall.
Qed.

(** Every word that [split] gives is non-empty, and its characters are
    characters of the string that are not whitespace. *)
Lemma words_from_words (P : N → Prop) (s : list N) :
  Forall P s →
  ∀ cur, Forall (λ c, P c ∧ Py.isspace c = false) cur →
  Forall (λ w, w ≠ [] ∧ Forall (λ c, P c ∧ Py.isspace c = false) w)
    (Py.words_from cur s).
Proof.
  assert (Hword : ∀ cur, cur ≠ [] →
            Forall (λ c, P c ∧ Py.isspace c = false) cur →
            rev cur ≠ [] ∧ Forall (λ c, P c ∧ Py.isspace c = false) (rev cur)).
  { intros cur Hne Hcur. split.
    - intros Hrev. apply Hne. apply (f_equal (@rev N)) in Hrev.
      by rewrite rev_involutive in Hrev.
    - rewrite !Forall_forall in *. intros c Hc. apply Hcur.
      apply list_elem_of_In. apply in_rev. by apply list_elem_of_In. }
  induction 1 as [|c s Hc Hs IH]; intros cur Hcur; simpl.
  - destruct cur as [|a cur]; [done|]. constructor; [|done].
    by apply Hword.
  - destruct (Py.isspace c) eqn:Hsp.
    + destruct cur as [|a cur]; [by apply IH|].
      constructor; [by apply Hword|by apply IH].
    + apply IH. by constructor.
Qed.

Lemma words_from_word (w cur rest : list N) :
  Forall (λ c, Py.isspace c = false) w →
  Py.words_from cur (w ++ rest) = Py.words_from (rev w ++ cur) rest.
Proof.
  intros Hw. revert cur. induction Hw as [|c w Hc Hw IH]; intros cur; [done|].
  simpl. rewrite Hc, IH. by rewrite <- app_assoc.
Qed.

(** Joining words with single spaces and splitting again gives the words
    back. *)
Lemma split_ws_join (ws : list (list N)) :
  Forall (λ w, w ≠ [] ∧ Forall (λ c, Py.isspace c = false) w) ws →
  Py.split_ws (Py.join [32%N] ws) = ws.
Proof.
  unfold Py.split_ws.
  induction 1 as [|w ws [Hne Hw] Hws IH]; [done|].
  assert (Hrev : rev w ≠ []).
  { intros Hrev. apply Hne. apply (f_equal (@rev N)) in Hrev.
    by rewrite rev_involutive in Hrev. }
  destruct ws as [|w' ws].
  - simpl. rewrite <- (app_nil_r w) at 1. rewrite (words_from_word w) by done.
    rewrite app_nil_r. simpl. destruct (rev w) as [|a r] eqn:Hr; [done|].
    by rewrite <- Hr, rev_involutive.
  - change (Py.join [32%N] (w :: w' :: ws))
      with (w ++ [32%N] ++ Py.join [32%N] (w' :: ws)).
    rewrite (words_from_word w) by done. rewrite app_nil_r.
    cbn [app Py.words_from].
    change (Py.isspace 32) with true. cbn match.
    destruct (rev w) as [|a r] eqn:Hr; [done|].
    rewrite <- Hr, rev_involutive. by rewrite IH.
Qed.

Lemma join_space_Forall (P : N → Prop) (ws : list (list N)) :
  P 32%N → Forall (Forall P) ws → Forall P (Py.join [32%N] ws).
Proof.
  intros Hsp. induction 1 as [|w ws Hw Hws IH]; [done|].
  destruct ws as [|w' ws]; [done|].
  change (Py.join [32%N] (w :: w' :: ws))
    with (w ++ [32%N] ++ Py.join [32%N] (w' :: ws)).
  apply Forall_app. split; [done|]. by constructor.
Qed.

Lemma clean_slug_no_dash (slug : list N) :
  Forall (λ c, Py.is_dash c = false) (clean_slug slug).
Proof.
  unfold clean_slug. apply strip_Forall.
  apply replace_from_Forall; [by repeat constructor|].
  apply replace_from_Forall; [by repeat constructor|].
  apply sub_dashes_from_no_dash.
Qed.

Section BoardNameFacts.
Context `{Platform}.

(** A board that is read from a slug, and not from the host, is in normal
    form: it is not empty, it is made of words separated by single spaces
    with no whitespace before or after (splitting it at whitespace and
    joining the words with single spaces gives it back), and it holds no
    hyphen and no underscore.  The statement is for slugs that clean to
    Latin-1 text, the repertoire of the case tables of this development. *)
Theorem board_name_normal_form (url0 : list N) (parsed : Url.ParseResult) :
  Url.urlparse url0 = Ok parsed →
  clean_slug (board_slug parsed) ≠ [] →
  Forall (λ c, c < 256) (clean_slug (board_slug parsed)) →
  ∃ b, _derive_board_name url0 = Ok b
       ∧ b ≠ []
       ∧ Py.join (u " ") (Py.split_ws b) = b
       ∧ Forall (λ c, c ≠ 45%N ∧ c ≠ 95%N) b.
Proof.
  intros Hparse Hclean _. unfold _derive_board_name. rewrite Hparse. simpl.
  destruct (clean_slug (board_slug parsed)) as [|c t] eqn:Hcl; [done|].
  eexists. split; [done|].
  pose proof (clean_slug_no_dash (board_slug parsed)) as Hnd.
  rewrite Hcl in Hnd.
  pose proof (words_from_words _ _ Hnd [] ltac:(done)) as Hwords.
  fold (Py.split_ws (c :: t)) in Hwords.
  assert (Hcap : Forall (λ w, w ≠ [] ∧ Forall plain w)
                   (Py.capitalize <$> Py.split_ws (c :: t))).
  { apply Forall_fmap. eapply Forall_impl; [exact Hwords|].
    intros w [Hne Hw]. simpl. split; [by apply capitalize_nonempty|].
    apply capitalize_plain. eapply Forall_impl; [exact Hw|].
    intros a [? ?]. by split. }
  change (u " ") with [32%N].
  split; [|split].
  - pose proof (strip_head _ _ _ Hcl) as Hc.
    unfold Py.split_ws. simpl. rewrite Hc.
    destruct (words_from_first [c] t ltac:(done)) as (w & ws & -> & Hw).
    rewrite fmap_cons. by apply join_first_nonempty, capitalize_nonempty.
  - rewrite split_ws_join; [done|].
    eapply Forall_impl; [exact Hcap|]. intros w [Hne Hw]. split; [done|].
    eapply Forall_impl; [exact Hw|]. by intros a [? _].
  - apply (Forall_impl (λ a, a = 32%N ∨ plain a)).
    + apply join_space_Forall; [by left|].
      eapply Forall_impl; [exact Hcap|]. intros w [_ Hw].
      eapply Forall_impl; [exact Hw|]. by right.
    + intros a [->|[_ Hdash]]; [done|].
      apply not_true_iff_false in Hdash. rewrite is_dash_spec in Hdash.
      split; intros ->; apply Hdash; [by left|by right].
Qed.

End BoardNameFacts.

Lemma board_name_normal_form_witness :
  ∃ b, @_derive_board_name Demo.portal
         (u "https://p.dk/naevn/miljoe-og_foedevare--klagenaevnet/afgoerelse/7")
       = Ok b
       ∧ b = u "Miljoe Og Foedevare Klagenævnet".
Proof.
  destruct (@board_name_normal_form Demo.portal
    (u "https://p.dk/naevn/miljoe-og_foedevare--klagenaevnet/afgoerelse/7")
    (Url.mk_ParseResult (u "https") (u "p.dk")
       (u "/naevn/miljoe-og_foedevare--klagenaevnet/afgoerelse/7") [] [] [])
    eq_refl ltac:(vm_compute; discriminate)
    ltac:(vm_compute; repeat constructor)) as (b & Hb & _).
  exists b. split; [exact Hb|].
  revert Hb. vm_compute. by intros [= <-].
Defined.
